(** * module-default-device-restore: debounced persistence of the default
      sink and source

    A shallow embedding of [src/modules/module-default-device-restore.c]
    (PulseAudio) and the properties its specification states about it.

    The module is written against three collaborators: the PulseAudio core
    (name registry, default names, subscriptions), the main loop (one-shot
    time events and the clock) and libc (stdio on two state files).  All
    three are kept in one explicit [world]; the C functions become
    computations in a state-and-failure monad over it, where failure stands
    for undefined behaviour of the C program (a dereference of freed memory,
    a handle released twice). *)

From Stdlib Require Import ZArith Ascii String List Lia.
From stdpp Require Import base option gmap strings list fin_maps.

Local Open Scope string_scope.
Local Open Scope Z_scope.

(** ** C strings *)

Definition NUL : ascii := "000"%char.
Definition LF : ascii := "010"%char.
Definition CR : ascii := "013"%char.

(** The newline written by the format ["%s\n"]. *)
Definition nl : string := String LF EmptyString.

(** A [char] buffer read as a C string ends at its first NUL. *)
Fixpoint c_str (buf : string) : string :=
  match buf with
  | EmptyString => EmptyString
  | String c rest => if Ascii.eqb c NUL then EmptyString else String c (c_str rest)
  end.

(** [fgets(buf, n, f)] on a stream positioned at the start of [content]:
    at most [n - 1] characters are stored, and reading stops after a
    newline, which is kept.  [room] is the number of characters that may
    still be stored. *)
Fixpoint fgets_room (room : nat) (content : string) : string :=
  match room, content with
  | O, _ => EmptyString
  | S _, EmptyString => EmptyString
  | S room', String c rest =>
      if Ascii.eqb c LF then String c EmptyString
      else String c (fgets_room room' rest)
  end.

Definition fgets (n : nat) (content : string) : string :=
  fgets_room (n - 1) content.

(** [strcspn(s, "\r\n")]: the length of the initial segment of [s] that
    holds neither a carriage return nor a newline. *)
Fixpoint strcspn_crlf (s : string) : nat :=
  match s with
  | EmptyString => O
  | String c rest =>
      if (Ascii.eqb c CR || Ascii.eqb c LF)%bool then O else S (strcspn_crlf rest)
  end.

Fixpoint str_take (n : nat) (s : string) : string :=
  match n, s with
  | O, _ => EmptyString
  | S _, EmptyString => EmptyString
  | S n', String c rest => String c (str_take n' rest)
  end.

(** Modelled from the spec: [pa_strip_nl] is defined in pulsecore/core-util.c,
    which is not among the sources; the spec has load read a single line and
    strip its trailing newline.  The line is cut at its first line terminator
    ([s[strcspn(s, "\r\n")] = 0]); on a line returned by [fgets], whose only
    newline is its last character, that strips the trailing newline. *)
Definition pa_strip_nl (s : string) : string :=
  str_take (strcspn_crlf s) s.

(** [pa_strempty(x)]: [x] when it is not [NULL], the empty string otherwise. *)
Definition pa_strempty (x : option string) : string :=
  match x with
  | Some s => s
  | None => EmptyString
  end.

(** [sizeof(ln)] for [char ln[256]]. *)
Definition sizeof_ln : nat := 256.

(** The two lines [fgets(ln, sizeof(ln)-1, f); pa_strip_nl(ln);] of [load],
    as a function of the file's content: the string [ln] holds afterwards. *)
Definition read_name (content : string) : string :=
  pa_strip_nl (c_str (fgets (sizeof_ln - 1) content)).

(** ** The world the module runs in *)

(** [pa_namereg_type_t], restricted to the two types the module uses
    ([PA_NAMEREG_SINK], [PA_NAMEREG_SOURCE]). *)
Inductive pa_namereg_type := PA_NAMEREG_SINK | PA_NAMEREG_SOURCE.

(** Modelled from the spec: the event bus of the core (pulsecore/core-subscribe.c
    and pulse/def.h) is not among the sources.  The spec has "event
    categories", of which the "server default changed" events, those that
    concern the default sink and the default source, form one: the server
    category.  A subscription is scoped by a mask, a set of categories. *)
Inductive facility :=
  | EVENT_SINK | EVENT_SOURCE | EVENT_SINK_INPUT | EVENT_SOURCE_OUTPUT
  | EVENT_MODULE | EVENT_CLIENT | EVENT_SAMPLE_CACHE | EVENT_SERVER
  | EVENT_AUTOLOAD.

Inductive event_kind := EVENT_NEW | EVENT_CHANGE | EVENT_REMOVE.

(** [pa_subscription_event_type_t]: a category and a kind. *)
Definition pa_subscription_event_type_t : Type := facility * event_kind.

Definition facility_eqb (a b : facility) : bool :=
  match a, b with
  | EVENT_SINK, EVENT_SINK | EVENT_SOURCE, EVENT_SOURCE
  | EVENT_SINK_INPUT, EVENT_SINK_INPUT
  | EVENT_SOURCE_OUTPUT, EVENT_SOURCE_OUTPUT
  | EVENT_MODULE, EVENT_MODULE | EVENT_CLIENT, EVENT_CLIENT
  | EVENT_SAMPLE_CACHE, EVENT_SAMPLE_CACHE | EVENT_SERVER, EVENT_SERVER
  | EVENT_AUTOLOAD, EVENT_AUTOLOAD => true
  | _, _ => false
  end.

Definition pa_subscription_mask_t : Type := list facility.

Definition PA_SUBSCRIPTION_MASK_SERVER : pa_subscription_mask_t := [EVENT_SERVER].

Definition pa_subscription_match_flags
    (m : pa_subscription_mask_t) (t : pa_subscription_event_type_t) : bool :=
  existsb (facility_eqb (fst t)) m.

(** The [errno] values [fopen] can leave behind. *)
Inductive errno := ENOENT | EACCES | EIO | EISDIR | EROFS | ENOSPC.

Definition errno_eqb (a b : errno) : bool :=
  match a, b with
  | ENOENT, ENOENT | EACCES, EACCES | EIO, EIO
  | EISDIR, EISDIR | EROFS, EROFS | ENOSPC, ENOSPC => true
  | _, _ => false
  end.

Global Instance errno_eq_dec : EqDecision errno.
Proof. solve_decision. Defined.

Definition pa_cstrerror (e : errno) : string :=
  match e with
  | ENOENT => "No such file or directory"
  | EACCES => "Permission denied"
  | EIO => "Input/output error"
  | EISDIR => "Is a directory"
  | EROFS => "Read-only file system"
  | ENOSPC => "No space left on device"
  end.

Inductive open_mode := ModeR | ModeW.

(** What the module does on the file system, in order. *)
Inductive io_event :=
  | Fopen (path : string) (mode : open_mode) (err : option errno)
  | Fprintf (path : string) (data : string).

(** [pa_log] reports an error, [pa_log_info] an information. *)
Inductive log_level := PA_LOG_ERROR | PA_LOG_INFO.

(** Pointers and handles. *)
Definition loc : Type := nat.

(** [struct userdata].  The [core] field is left out: there is one core,
    the one of the [world].  A [char*] that may be [NULL] is an option. *)
Record userdata := mkUserdata {
  subscription : option loc;
  time_event : option loc;
  sink_filename : option string;
  source_filename : option string;
  modified : bool
}.

(** A subscription of the core: its mask and the [userdata] pointer its
    callback is called with.  The callback is always [subscribe_cb]. *)
Record pa_subscription := mkSubscription {
  sub_mask : pa_subscription_mask_t;
  sub_userdata : loc
}.

(** A time event of the main loop: its deadline while it is armed ([None]
    once it has fired: time events are one-shot, and stay allocated until
    [time_free]), and the [userdata] pointer of its callback, [time_cb]. *)
Record pa_time_event := mkTimeEvent {
  te_deadline : option Z;
  te_userdata : loc
}.

Record world := mkWorld {
  (* pa_core *)
  default_sink_name : option string;
  default_source_name : option string;
  sinks : list string;
  sources : list string;
  subscriptions : gmap loc pa_subscription;
  (* the main loop *)
  now : Z;
  time_events : gmap loc pa_time_event;
  (* libc: files, and the errors that opening a path fails with *)
  files : gmap string string;
  read_error : gmap string errno;
  write_error : gmap string errno;
  (* how many characters a file still takes once it is open for writing
     (no entry: all of them); a full disk takes none *)
  write_limit : gmap string nat;
  trace : list io_event;
  log : list (log_level * string);
  (* the directory of the state files, when it can be had *)
  state_dir : option string;
  (* memory: the allocated [struct userdata], the next fresh address *)
  heap : gmap loc userdata;
  next_loc : loc;
  (* pa_module *)
  m_userdata : option loc
}.

Definition set_default_sink_name (v : option string) (w : world) : world :=
  mkWorld v (default_source_name w) (sinks w) (sources w) (subscriptions w)
    (now w) (time_events w) (files w) (read_error w) (write_error w)
    (write_limit w) (trace w) (log w) (state_dir w) (heap w) (next_loc w)
    (m_userdata w).

Definition set_default_source_name (v : option string) (w : world) : world :=
  mkWorld (default_sink_name w) v (sinks w) (sources w) (subscriptions w)
    (now w) (time_events w) (files w) (read_error w) (write_error w)
    (write_limit w) (trace w) (log w) (state_dir w) (heap w) (next_loc w)
    (m_userdata w).

Definition set_subscriptions (v : gmap loc pa_subscription) (w : world) : world :=
  mkWorld (default_sink_name w) (default_source_name w) (sinks w) (sources
    w) v (now w) (time_events w) (files w) (read_error w) (write_error w)
    (write_limit w) (trace w) (log w) (state_dir w) (heap w) (next_loc w)
    (m_userdata w).

Definition set_now (v : Z) (w : world) : world :=
  mkWorld (default_sink_name w) (default_source_name w) (sinks w) (sources
    w) (subscriptions w) v (time_events w) (files w) (read_error w)
    (write_error w) (write_limit w) (trace w) (log w) (state_dir w) (heap w)
    (next_loc w) (m_userdata w).

Definition set_time_events (v : gmap loc pa_time_event) (w : world) : world :=
  mkWorld (default_sink_name w) (default_source_name w) (sinks w) (sources
    w) (subscriptions w) (now w) v (files w) (read_error w) (write_error w)
    (write_limit w) (trace w) (log w) (state_dir w) (heap w) (next_loc w)
    (m_userdata w).

Definition set_files (v : gmap string string) (w : world) : world :=
  mkWorld (default_sink_name w) (default_source_name w) (sinks w) (sources
    w) (subscriptions w) (now w) (time_events w) v (read_error w)
    (write_error w) (write_limit w) (trace w) (log w) (state_dir w) (heap w)
    (next_loc w) (m_userdata w).

Definition set_trace (v : list io_event) (w : world) : world :=
  mkWorld (default_sink_name w) (default_source_name w) (sinks w) (sources
    w) (subscriptions w) (now w) (time_events w) (files w) (read_error w)
    (write_error w) (write_limit w) v (log w) (state_dir w) (heap w)
    (next_loc w) (m_userdata w).

Definition set_log (v : list (log_level * string)) (w : world) : world :=
  mkWorld (default_sink_name w) (default_source_name w) (sinks w) (sources
    w) (subscriptions w) (now w) (time_events w) (files w) (read_error w)
    (write_error w) (write_limit w) (trace w) v (state_dir w) (heap w)
    (next_loc w) (m_userdata w).

Definition set_heap (v : gmap loc userdata) (w : world) : world :=
  mkWorld (default_sink_name w) (default_source_name w) (sinks w) (sources
    w) (subscriptions w) (now w) (time_events w) (files w) (read_error w)
    (write_error w) (write_limit w) (trace w) (log w) (state_dir w) v
    (next_loc w) (m_userdata w).

Definition set_next_loc (v : loc) (w : world) : world :=
  mkWorld (default_sink_name w) (default_source_name w) (sinks w) (sources
    w) (subscriptions w) (now w) (time_events w) (files w) (read_error w)
    (write_error w) (write_limit w) (trace w) (log w) (state_dir w) (heap w)
    v (m_userdata w).

Definition set_m_userdata (v : option loc) (w : world) : world :=
  mkWorld (default_sink_name w) (default_source_name w) (sinks w) (sources
    w) (subscriptions w) (now w) (time_events w) (files w) (read_error w)
    (write_error w) (write_limit w) (trace w) (log w) (state_dir w) (heap w)
    (next_loc w) v.

(** ** The monad of the embedding *)

(** A computation reads and updates the [world]; [None] is undefined
    behaviour of the C program, or a call the environment cannot make. *)
Definition M (A : Type) : Type := world -> option (A * world).

Definition ret {A} (a : A) : M A := fun w => Some (a, w).

Definition bind {A B} (m : M A) (k : A -> M B) : M B :=
  fun w => match m w with
           | Some (a, w') => k a w'
           | None => None
           end.

Definition abort {A} : M A := fun _ => None.

Definition gets {A} (f : world -> A) : M A := fun w => Some (f w, w).

Definition modify (f : world -> world) : M unit := fun w => Some (tt, f w).

Declare Scope m_scope.
Delimit Scope m_scope with M.
Notation "x <- m ;; k" := (bind m (fun x => k))
  (at level 100, m at next level, right associativity) : m_scope.
Notation "m ;; k" := (bind m (fun _ => k))
  (at level 100, right associativity) : m_scope.
Local Open Scope m_scope.

(** The final world of a computation. *)
Definition exec {A} (m : M A) (w : world) : option world :=
  match m w with
  | Some (_, w') => Some w'
  | None => None
  end.

(** [*p] for [p : struct userdata *]: undefined once [p] has been freed. *)
Definition deref (p : loc) : M userdata :=
  fun w => match heap w !! p with
           | Some u => Some (u, w)
           | None => None
           end.

(** [p->field = v], as an update of the structure [p] points to. *)
Definition update (p : loc) (f : userdata -> userdata) : M unit :=
  u <- deref p ;;
  modify (fun w => set_heap (<[p := f u]> (heap w)) w).

Definition set_subscription (v : option loc) (u : userdata) : userdata :=
  mkUserdata v (time_event u) (sink_filename u) (source_filename u) (modified u).
Definition set_time_event (v : option loc) (u : userdata) : userdata :=
  mkUserdata (subscription u) v (sink_filename u) (source_filename u) (modified u).
Definition set_sink_filename (v : option string) (u : userdata) : userdata :=
  mkUserdata (subscription u) (time_event u) v (source_filename u) (modified u).
Definition set_source_filename (v : option string) (u : userdata) : userdata :=
  mkUserdata (subscription u) (time_event u) (sink_filename u) v (modified u).
Definition set_modified (v : bool) (u : userdata) : userdata :=
  mkUserdata (subscription u) (time_event u) (sink_filename u) (source_filename u) v.

(** ** The collaborators *)

(** *** libc *)

(** [fopen(path, "r")]: the content of the file, or the [errno] of the
    failure; a path that names no file fails with [ENOENT]. *)
Definition fopen_r (path : string) : M (errno + string) :=
  fun w =>
    let r := match read_error w !! path with
             | Some e => inl e
             | None => match files w !! path with
                       | Some content => inr content
                       | None => inl ENOENT
                       end
             end in
    let err := match r with inl e => Some e | inr _ => None end in
    Some (r, set_trace (trace w ++ [Fopen path ModeR err]) w).

(** [fopen(path, "w")]: creates the file or truncates it to length zero. *)
Definition fopen_w (path : string) : M (errno + unit) :=
  fun w =>
    match write_error w !! path with
    | Some e => Some (inl e, set_trace (trace w ++ [Fopen path ModeW (Some e)]) w)
    | None =>
        Some (inr tt,
              set_files (<[path := EmptyString]> (files w))
                (set_trace (trace w ++ [Fopen path ModeW None]) w))
    end.

(** What reaches a file of the data written to it: all of it, or the
    characters the file system still takes. *)
Definition written (limit : option nat) (data : string) : string :=
  match limit with
  | Some n => str_take n data
  | None => data
  end.

(** [fprintf(f, "%s", data); fclose(f);] on the stream opened on [path].
    Both can fail, on a full disk for one, and what they return is not
    looked at: the file then holds less than [data], and nobody is told. *)
Definition fprintf (path : string) (data : string) : M unit :=
  modify (fun w =>
    set_files
      (<[path := pa_strempty (files w !! path)
                 ++ written (write_limit w !! path) data]> (files w))
      (set_trace (trace w ++ [Fprintf path data]) w)).

(** *** Logging *)

Definition pa_log (msg : string) : M unit :=
  modify (fun w => set_log (log w ++ [(PA_LOG_ERROR, msg)]) w).

Definition pa_log_info (msg : string) : M unit :=
  modify (fun w => set_log (log w ++ [(PA_LOG_INFO, msg)]) w).

(** *** The core: name registry and default names *)

(** Modelled from the spec: pulsecore/namereg.c is not among the sources.
    [pa_namereg_get] is the validity check "does a resource named N of
    class X currently exist". *)
Definition pa_namereg_get (name : string) (t : pa_namereg_type) : M bool :=
  gets (fun w =>
    match t with
    | PA_NAMEREG_SINK => bool_decide (name ∈ sinks w)
    | PA_NAMEREG_SOURCE => bool_decide (name ∈ sources w)
    end).

(** Modelled from the spec: pulsecore/namereg.c is not among the sources.
    [pa_namereg_set_default] sets the default of a class. *)
Definition pa_namereg_set_default (name : option string) (t : pa_namereg_type)
  : M unit :=
  modify (match t with
          | PA_NAMEREG_SINK => set_default_sink_name name
          | PA_NAMEREG_SOURCE => set_default_source_name name
          end).

(** Modelled from the spec: pulsecore/namereg.c is not among the sources.
    The two queries "current default for class X". *)
Definition pa_namereg_get_default_sink_name : M (option string) :=
  gets default_sink_name.

Definition pa_namereg_get_default_source_name : M (option string) :=
  gets default_source_name.

(** Modelled from the spec: [pa_state_path] (pulsecore/core-util.c) is not
    among the sources.  It is the "path-resolution function mapping a
    logical slot name to a stable per-installation file path"; it yields
    [NULL] when the path cannot be resolved. *)
Definition pa_state_path (fn : string) : M (option string) :=
  gets (fun w =>
    match state_dir w with
    | Some d => Some (d ++ "/" ++ fn)
    | None => None
    end).

(** *** Memory *)

(** [pa_xnew0(struct userdata, 1)]: a fresh, zeroed structure. *)
Definition pa_xnew0 : M loc :=
  fun w =>
    let p := next_loc w in
    Some (p, set_next_loc (S p)
               (set_heap (<[p := mkUserdata None None None None false]> (heap w)) w)).

(** [pa_xfree(p)] for [p : struct userdata *]: freeing what is not
    allocated is undefined. *)
Definition pa_xfree (p : loc) : M unit :=
  _ <- deref p ;;
  modify (fun w => set_heap (delete p (heap w)) w).

(** *** Subscriptions and time events *)

(** [pa_subscription_new(core, mask, subscribe_cb, u)]. *)
Definition pa_subscription_new (m : pa_subscription_mask_t) (u : loc) : M loc :=
  fun w =>
    let s := next_loc w in
    Some (s, set_next_loc (S s)
               (set_subscriptions (<[s := mkSubscription m u]> (subscriptions w)) w)).

Definition pa_subscription_free (s : loc) : M unit :=
  fun w =>
    match subscriptions w !! s with
    | Some _ => Some (tt, set_subscriptions (delete s (subscriptions w)) w)
    | None => None
    end.

(** [mainloop->time_new(mainloop, tv, time_cb, u)]. *)
Definition time_new (tv : Z) (u : loc) : M loc :=
  fun w =>
    let e := next_loc w in
    Some (e, set_next_loc (S e)
               (set_time_events (<[e := mkTimeEvent (Some tv) u]> (time_events w)) w)).

(** [mainloop->time_free(e)]. *)
Definition time_free (e : loc) : M unit :=
  fun w =>
    match time_events w !! e with
    | Some _ => Some (tt, set_time_events (delete e (time_events w)) w)
    | None => None
    end.

(** [pa_gettimeofday(&tv)], in microseconds. *)
Definition pa_gettimeofday : M Z := gets now.

Definition pa_timeval_add (tv : Z) (v : Z) : Z := tv + v.

Definition PA_USEC_PER_SEC : Z := 1000000.

(** ** The module *)

Definition DEFAULT_SAVE_INTERVAL : Z := 5.

(** [fopen] on a [char*] field: undefined on [NULL]. *)
Definition filename (f : option string) : M string :=
  match f with
  | Some path => ret path
  | None => abort
  end.

(** [load], first statement: the default sink. *)
Definition load_sink (u : loc) : M unit :=
  ud <- deref u ;;
  configured <- gets default_sink_name ;;
  match configured with
  | Some _ => pa_log_info "Manually configured default sink, not overwriting."
  | None =>
      path <- filename (sink_filename ud) ;;
      f <- fopen_r path ;;
      match f with
      | inr content =>
          let ln := read_name content in
          match ln with
          | EmptyString => pa_log_info "No previous default sink setting, ignoring."
          | _ =>
              found <- pa_namereg_get ln PA_NAMEREG_SINK ;;
              if found : bool then
                pa_namereg_set_default (Some ln) PA_NAMEREG_SINK ;;
                pa_log_info ("Restored default sink '" ++ ln ++ "'.")
              else
                pa_log_info ("Saved default sink '" ++ ln ++
                             "' not existant, not restoring default sink setting.")
          end
      | inl e =>
          if errno_eqb e ENOENT then ret tt
          else pa_log ("Failed to load default sink: " ++ pa_cstrerror e)
      end
  end.

(** [load], second statement: the default source.  The message of its last
    branch names the sink, as in the source. *)
Definition load_source (u : loc) : M unit :=
  ud <- deref u ;;
  configured <- gets default_source_name ;;
  match configured with
  | Some _ => pa_log_info "Manually configured default source, not overwriting."
  | None =>
      path <- filename (source_filename ud) ;;
      f <- fopen_r path ;;
      match f with
      | inr content =>
          let ln := read_name content in
          match ln with
          | EmptyString => pa_log_info "No previous default source setting, ignoring."
          | _ =>
              found <- pa_namereg_get ln PA_NAMEREG_SOURCE ;;
              if found : bool then
                pa_namereg_set_default (Some ln) PA_NAMEREG_SOURCE ;;
                pa_log_info ("Restored default source '" ++ ln ++ "'.")
              else
                pa_log_info ("Saved default source '" ++ ln ++
                             "' not existant, not restoring default source setting.")
          end
      | inl e =>
          if errno_eqb e ENOENT then ret tt
          else pa_log ("Failed to load default sink: " ++ pa_cstrerror e)
      end
  end.

Definition load (u : loc) : M unit :=
  load_sink u ;;
  load_source u.

Definition save (u : loc) : M unit :=
  ud <- deref u ;;
  if negb (modified ud) then ret tt
  else
    match sink_filename ud with
    | Some path =>
        f <- fopen_w path ;;
        match f with
        | inr _ =>
            n <- pa_namereg_get_default_sink_name ;;
            fprintf path (pa_strempty n ++ nl)
        | inl e => pa_log ("Failed to save default sink: " ++ pa_cstrerror e)
        end
    | None => ret tt
    end ;;
    match source_filename ud with
    | Some path =>
        f <- fopen_w path ;;
        match f with
        | inr _ =>
            n <- pa_namereg_get_default_source_name ;;
            fprintf path (pa_strempty n ++ nl)
        | inl e => pa_log ("Failed to save default source: " ++ pa_cstrerror e)
        end
    | None => ret tt
    end ;;
    update u (set_modified false).

Definition time_cb (e : loc) (u : loc) : M unit :=
  save u ;;
  ud <- deref u ;;
  match time_event ud with
  | Some te =>
      time_free te ;;
      update u (set_time_event None)
  | None => ret tt
  end.

Definition subscribe_cb (t : pa_subscription_event_type_t) (idx : Z) (u : loc)
  : M unit :=
  update u (set_modified true) ;;
  ud <- deref u ;;
  match time_event ud with
  | None =>
      tv <- pa_gettimeofday ;;
      let tv := pa_timeval_add tv (DEFAULT_SAVE_INTERVAL * PA_USEC_PER_SEC) in
      te <- time_new tv u ;;
      update u (set_time_event (Some te))
  | Some _ => ret tt
  end.

(** The file names are strings owned by the structure: [pa_xfree] on them
    has no effect of its own in this model, they go with the structure. *)
Definition pa__done : M unit :=
  mu <- gets m_userdata ;;
  match mu with
  | None => ret tt
  | Some u =>
      save u ;;
      ud <- deref u ;;
      match subscription ud with
      | Some s => pa_subscription_free s
      | None => ret tt
      end ;;
      match time_event ud with
      | Some te => time_free te
      | None => ret tt
      end ;;
      pa_xfree u
  end.

Definition pa__init : M Z :=
  u <- pa_xnew0 ;;
  modify (set_m_userdata (Some u)) ;;
  sf <- pa_state_path "default-sink" ;;
  update u (set_sink_filename sf) ;;
  match sf with
  | None => pa__done ;; ret (-1)
  | Some _ =>
      sof <- pa_state_path "default-source" ;;
      update u (set_source_filename sof) ;;
      match sof with
      | None => pa__done ;; ret (-1)
      | Some _ =>
          load u ;;
          s <- pa_subscription_new PA_SUBSCRIPTION_MASK_SERVER u ;;
          update u (set_subscription (Some s)) ;;
          ret 0
      end
  end.

(** ** The event loop around the module *)

(** Modelled from the spec: the dispatcher of the event bus
    (pulsecore/core-subscribe.c) is not among the sources.  An event is
    delivered to the subscriptions whose mask holds its category ("other
    event categories are irrelevant and must be filtered or not subscribed
    to"), one callback running to completion before the next. *)
Fixpoint deliver (t : pa_subscription_event_type_t) (idx : Z)
    (subs : list (loc * pa_subscription)) : M unit :=
  match subs with
  | [] => ret tt
  | (_, s) :: rest =>
      (if pa_subscription_match_flags (sub_mask s) t
       then subscribe_cb t idx (sub_userdata s)
       else ret tt) ;;
      deliver t idx rest
  end.

Definition pa_subscription_post (t : pa_subscription_event_type_t) (idx : Z)
  : M unit :=
  subs <- gets (fun w => map_to_list (subscriptions w)) ;;
  deliver t idx subs.

(** Modelled from the spec: the main loop is not among the sources.  It is
    "a one-shot delayed-callback scheduler": a time event whose deadline has
    come is disarmed and its callback is called. *)
Definition mainloop_fire (e : loc) : M unit :=
  events <- gets time_events ;;
  tv <- gets now ;;
  match events !! e with
  | Some (mkTimeEvent (Some deadline) u) =>
      if deadline <=? tv then
        modify (set_time_events (<[e := mkTimeEvent None u]> events)) ;;
        time_cb e u
      else abort
  | _ => abort
  end.

(** [PA_INVALID_INDEX], the index of a server event. *)
Definition PA_INVALID_INDEX : Z := 4294967295.

(** What can happen to a loaded module. *)
Inductive action :=
  (** the default of a class changes; the core posts a server event *)
  | Change (t : pa_namereg_type) (name : option string)
  (** any other event on the bus *)
  | Post (t : pa_subscription_event_type_t) (idx : Z)
  (** time passes *)
  | Tick (dt : Z)
  (** the main loop finds the time event [e] due *)
  | Fire (e : loc)
  (** the module is unloaded *)
  | Stop.

Definition step (a : action) : M unit :=
  match a with
  | Change t name =>
      pa_namereg_set_default name t ;;
      pa_subscription_post (EVENT_SERVER, EVENT_CHANGE) PA_INVALID_INDEX
  | Post t idx => pa_subscription_post t idx
  | Tick dt => if 0 <=? dt then modify (fun w => set_now (now w + dt) w) else abort
  | Fire e => mainloop_fire e
  | Stop => pa__done
  end.

Fixpoint run (acts : list action) : M unit :=
  match acts with
  | [] => ret tt
  | a :: rest => step a ;; run rest
  end.

(** A world into which the module has not been loaded yet. *)
Definition boot (w : world) : Prop :=
  subscriptions w = ∅ /\ time_events w = ∅ /\ heap w = ∅ /\ m_userdata w = None.

(** [start()] succeeds on [w0] and the actions [acts] lead to [w]. *)
Definition reachable (w0 : world) (acts : list action) (w : world) : Prop :=
  boot w0 /\ exists w1, pa__init w0 = Some (0, w1) /\ exec (run acts) w1 = Some w.

(** ** The vocabulary of the properties *)

(** *** The effect of a flush *)

(** What [save] does to one slot once it has found the flag set: the failure
    to open it is logged, or the file is rewritten with what the file system
    takes of the current name. *)
Definition write_slot (path : string) (what : string) (name : option string)
    (w : world) : world :=
  set_log
    (match write_error w !! path with
     | Some e => log w ++ [(PA_LOG_ERROR, what ++ pa_cstrerror e)]
     | None => log w
     end)
    (set_files
       (match write_error w !! path with
        | Some _ => files w
        | None =>
            <[path := written (write_limit w !! path) (pa_strempty name ++ nl)]>
              (files w)
        end)
       (set_trace
          (trace w ++
           match write_error w !! path with
           | Some e => [Fopen path ModeW (Some e)]
           | None => [Fopen path ModeW None; Fprintf path (pa_strempty name ++ nl)]
           end)
          w)).

(** What [save] does to both slots: the sink first, then the source. *)
Definition flushed (sf sof : string) (w : world) : world :=
  write_slot sof "Failed to save default source: " (default_source_name w)
    (write_slot sf "Failed to save default sink: " (default_sink_name w) w).

(** *** The states of the module *)

(** The state of a loaded module: the structure [u] points to is allocated
    and holds the one subscription and both file names; the main loop has
    the time event of [u], armed, or none, and a time event is only there
    while the flag is set. *)
Definition live (u : loc) (ud : userdata) (w : world) : Prop :=
  m_userdata w = Some u /\
  heap w !! u = Some ud /\
  (exists s, subscription ud = Some s /\
     subscriptions w = {[s := mkSubscription PA_SUBSCRIPTION_MASK_SERVER u]}) /\
  (exists sf sof, sink_filename ud = Some sf /\ source_filename ud = Some sof) /\
  match time_event ud with
  | None => time_events w = ∅
  | Some e =>
      modified ud = true /\
      exists d, time_events w = {[e := mkTimeEvent (Some d) u]}
  end.

(** The state of an unloaded module: nothing is registered, and the module
    still holds the pointer to its freed structure. *)
Definition unloaded (w : world) : Prop :=
  subscriptions w = ∅ /\ time_events w = ∅ /\
  exists u, m_userdata w = Some u /\ heap w !! u = None.

(** The world after [subscribe_cb] has armed a time event. *)
Definition armed (u : loc) (ud : userdata) (w : world) : world :=
  set_heap
    (<[u := set_time_event (Some (next_loc w)) (set_modified true ud)]> (heap w))
    (set_next_loc (S (next_loc w))
       (set_time_events
          (<[next_loc w :=
               mkTimeEvent (Some (now w + DEFAULT_SAVE_INTERVAL * PA_USEC_PER_SEC)) u]>
             (time_events w))
          w)).

(** *** What [load] leaves alone *)

(** [w'] differs from [w] in the default names, the trace of file
    operations and the log at most. *)
Definition load_frame (w w' : world) : Prop :=
  sinks w' = sinks w /\ sources w' = sources w /\
  subscriptions w' = subscriptions w /\ now w' = now w /\
  time_events w' = time_events w /\ files w' = files w /\
  read_error w' = read_error w /\ write_error w' = write_error w /\
  state_dir w' = state_dir w /\ heap w' = heap w /\
  next_loc w' = next_loc w /\ m_userdata w' = m_userdata w.

(** A computation that changes no more than that. *)
Definition keeps {A} (m : M A) : Prop :=
  forall w a w', m w = Some (a, w') -> load_frame w w'.

(** *** The steps of [pa__init] *)

(** The world once [pa__init] has allocated the structure and stored the
    two file names. *)
Definition allocated (sf sof : option string) (w : world) : world :=
  set_heap (<[next_loc w := mkUserdata None None sf sof false]> (heap w))
    (set_m_userdata (Some (next_loc w)) (set_next_loc (S (next_loc w)) w)).

(** The world once [pa__init] has registered the subscription. *)
Definition subscribed (u : loc) (ud : userdata) (w : world) : world :=
  set_heap (<[u := set_subscription (Some (next_loc w)) ud]> (heap w))
    (set_next_loc (S (next_loc w))
       (set_subscriptions
          (<[next_loc w := mkSubscription PA_SUBSCRIPTION_MASK_SERVER u]>
             (subscriptions w))
          w)).

(** *** The invariant of the event loop *)

Definition loaded (w : world) : Prop := exists u ud, live u ud w.

(** Between two steps of the event loop the module is loaded or unloaded. *)
Definition module_inv (w : world) : Prop := loaded w \/ unloaded w.

(** [w'] differs from [w] in nothing the file system, the clock, the log or
    the default names can show. *)
Definition quiet (w w' : world) : Prop :=
  trace w' = trace w /\ files w' = files w /\ write_error w' = write_error w /\
  log w' = log w /\ now w' = now w /\
  default_sink_name w' = default_sink_name w /\
  default_source_name w' = default_source_name w /\
  write_limit w' = write_limit w.

(** *** Names and lines *)

(** [p] is an initial segment of [s]. *)
Definition is_prefix (p s : string) : Prop := exists rest, s = p ++ rest.

(** A name as the core holds it: a C string on one line. *)
Fixpoint plain (name : string) : bool :=
  match name with
  | EmptyString => true
  | String c rest =>
      negb (Ascii.eqb c NUL) && negb (Ascii.eqb c CR) && negb (Ascii.eqb c LF)
      && plain rest
  end.

(** *** The two halves of [load], by class *)

(** [load] treats the sink, then the source; the half of a class. *)
Definition load_class (t : pa_namereg_type) : loc -> M unit :=
  match t with
  | PA_NAMEREG_SINK => load_sink
  | PA_NAMEREG_SOURCE => load_source
  end.

Definition default_name (t : pa_namereg_type) (w : world) : option string :=
  match t with
  | PA_NAMEREG_SINK => default_sink_name w
  | PA_NAMEREG_SOURCE => default_source_name w
  end.

Definition set_default_name (t : pa_namereg_type) (v : option string)
    (w : world) : world :=
  match t with
  | PA_NAMEREG_SINK => set_default_sink_name v w
  | PA_NAMEREG_SOURCE => set_default_source_name v w
  end.

Definition slot (t : pa_namereg_type) (ud : userdata) : option string :=
  match t with
  | PA_NAMEREG_SINK => sink_filename ud
  | PA_NAMEREG_SOURCE => source_filename ud
  end.

Definition registered (t : pa_namereg_type) (name : string) (w : world) : bool :=
  match t with
  | PA_NAMEREG_SINK => bool_decide (name ∈ sinks w)
  | PA_NAMEREG_SOURCE => bool_decide (name ∈ sources w)
  end.

(** How [fopen(path, "r")] ends in [w]. *)
Definition open_outcome (path : string) (w : world) : option errno :=
  match read_error w !! path with
  | Some e => Some e
  | None => match files w !! path with
            | Some _ => None
            | None => Some ENOENT
            end
  end.

Definition is_empty (s : string) : bool :=
  match s with
  | EmptyString => true
  | String _ _ => false
  end.

Definition other (t : pa_namereg_type) : pa_namereg_type :=
  match t with
  | PA_NAMEREG_SINK => PA_NAMEREG_SOURCE
  | PA_NAMEREG_SOURCE => PA_NAMEREG_SINK
  end.

(** *** The file operations of a flush *)

(** The file operations of [save] on one slot. *)
Definition slot_io (path : string) (name : option string) (err : option errno)
  : list io_event :=
  match err with
  | Some e => [Fopen path ModeW (Some e)]
  | None => [Fopen path ModeW None; Fprintf path (pa_strempty name ++ nl)]
  end.

(** *** Bursts of change events *)

(** A burst: each change of a default comes after a delay. *)
Definition burst : Type := list (Z * pa_namereg_type * option string).

Fixpoint burst_actions (b : burst) : list action :=
  match b with
  | [] => []
  | (dt, t, name) :: rest => Tick dt :: Change t name :: burst_actions rest
  end.

(** The time a burst takes. *)
Fixpoint span (b : burst) : Z :=
  match b with
  | [] => 0
  | (dt, _, _) :: rest => dt + span rest
  end.

Definition delays_ok (b : burst) : Prop := Forall (fun x => 0 <= fst (fst x)) b.

(** *** The flag, from the history *)

(** The flag after an action, from the flag before it: a change event sets
    it, a flush clears it. *)
Definition dirty_after (d : bool) (a : action) : bool :=
  match a with
  | Change _ _ => true
  | Post t _ => facility_eqb (fst t) EVENT_SERVER || d
  | Tick _ => d
  | Fire _ => false
  | Stop => false
  end.

(** *** The deadline of the time event *)

(** No time event is due later than one save interval from now. *)
Definition deadline_near (w : world) : Prop :=
  forall e te d, time_events w !! e = Some te -> te_deadline te = Some d ->
    d <= now w + DEFAULT_SAVE_INTERVAL * PA_USEC_PER_SEC.

(** A character that ends the line [load] reads: the newline at which
    [fgets] stops, the carriage return and the newline at which
    [pa_strip_nl] cuts, and the NUL that ends a C string. *)
Definition ends_line (c : ascii) : Prop := c = LF \/ c = CR \/ c = NUL.

(** ** Sample worlds *)

Definition world0 : world :=
  mkWorld None None ["alsa_output"; "null"] ["alsa_input"] ∅ 0 ∅ ∅ ∅ ∅ ∅ [] []
    (Some "/var/lib/pulse") ∅ 1%nat None.

Definition sink_path : string := "/var/lib/pulse/default-sink".
Definition source_path : string := "/var/lib/pulse/default-source".

Definition the_userdata (w : world) : option userdata :=
  match m_userdata w with
  | Some u => heap w !! u
  | None => None
  end.

(** The world [acts] lead to after a start on [w0]. *)
Definition after (w0 : world) (acts : list action) : world :=
  match exec (pa__init ;; run acts) w0 with
  | Some w => w
  | None => w0
  end.

Definition world_loaded : world := after world0 [].

Definition ud_loaded : userdata :=
  mkUserdata (Some 2%nat) None (Some sink_path) (Some source_path) false.

(** The structure as [load] finds it. *)
Definition ud_init : userdata :=
  mkUserdata None None (Some sink_path) (Some source_path) false.

(** A world in which a default sink is configured and a slot file of an
    earlier run names another sink. *)
Definition world_configured : world :=
  mkWorld (Some "null") None ["alsa_output"; "null"] ["alsa_input"] ∅ 0 ∅
    {[sink_path := "alsa_output" ++ nl]} ∅ ∅ ∅ [] [] (Some "/var/lib/pulse")
    {[1%nat := ud_init]} 2%nat (Some 1%nat).

(** A world without slot files. *)
Definition world_fresh : world :=
  mkWorld None None ["alsa_output"; "null"] ["alsa_input"] ∅ 0 ∅ ∅ ∅ ∅ ∅ [] []
    (Some "/var/lib/pulse") {[1%nat := ud_init]} 2%nat (Some 1%nat).

Fixpoint repeat_char (c : ascii) (n : nat) : string :=
  match n with
  | O => EmptyString
  | S n' => String c (repeat_char c n')
  end.

(** A name of 300 characters, and a world whose sink slot holds it. *)
Definition long_name : string := repeat_char "a"%char 300.

Definition world_long : world :=
  mkWorld None None [long_name] [] ∅ 0 ∅ {[sink_path := long_name ++ nl]} ∅ ∅
    ∅ [] [] (Some "/var/lib/pulse") {[1%nat := ud_init]} 2%nat (Some 1%nat).

(** A world whose state directory cannot be written. *)
Definition world_readonly : world :=
  mkWorld None None ["alsa_output"; "null"] ["alsa_input"] ∅ 0 ∅ ∅ ∅
    {[sink_path := EROFS; source_path := EROFS]} ∅ [] []
    (Some "/var/lib/pulse") ∅ 1%nat None.

Definition failed_save : list action :=
  [Change PA_NAMEREG_SINK (Some "alsa_output"); Tick 5000000; Fire 3%nat].

Definition ud_armed : userdata :=
  mkUserdata (Some 2%nat) (Some 3%nat) (Some sink_path) (Some source_path) true.

(** The structure of a module that has seen a change and not flushed. *)
Definition ud_dirty : userdata :=
  mkUserdata (Some 2%nat) None (Some sink_path) (Some source_path) true.

(** A world with both defaults set and a change not yet flushed. *)
Definition world_dirty : world :=
  mkWorld (Some "alsa_output") (Some "alsa_input") ["alsa_output"; "null"]
    ["alsa_input"] ∅ 0 ∅ {[sink_path := "null" ++ nl]} ∅ ∅ ∅ [] []
    (Some "/var/lib/pulse") {[1%nat := ud_dirty]} 3%nat (Some 1%nat).

(** The same without a default sink. *)
Definition world_no_default : world :=
  set_default_sink_name None world_dirty.

(** The same, the sink slot being on a file system that cannot be written. *)
Definition world_sink_ro : world :=
  mkWorld (Some "alsa_output") (Some "alsa_input") ["alsa_output"; "null"]
    ["alsa_input"] ∅ 0 ∅ {[sink_path := "null" ++ nl]} ∅
    {[sink_path := EROFS]} ∅ [] []
    (Some "/var/lib/pulse") {[1%nat := ud_dirty]} 3%nat (Some 1%nat).

(** The world of a later run: no default is configured, and the sink slot
    holds what [slot_content] says. *)
Definition world_restart (slot_content : string) : world :=
  mkWorld None None ["alsa_output"; "null"] ["alsa_input"] ∅ 0 ∅
    {[sink_path := slot_content]} ∅ ∅ ∅ [] []
    (Some "/var/lib/pulse") {[1%nat := ud_init]} 2%nat (Some 1%nat).

(** The world of a later run in which the sink slot cannot be read and the
    source slot names a source the core knows. *)
Definition world_source_only : world :=
  mkWorld None None ["alsa_output"; "null"] ["alsa_input"] ∅ 0 ∅
    {[sink_path := "alsa_output" ++ nl; source_path := "alsa_input" ++ nl]}
    {[sink_path := EACCES]} ∅ ∅ [] []
    (Some "/var/lib/pulse") {[1%nat := ud_init]} 2%nat (Some 1%nat).

(** A world whose disk is full: the slots open, and take nothing. *)
Definition world_full : world :=
  mkWorld None None ["alsa_output"; "null"] ["alsa_input"] ∅ 0 ∅ ∅ ∅ ∅
    {[sink_path := 0%nat; source_path := 0%nat]} [] []
    (Some "/var/lib/pulse") ∅ 1%nat None.

Definition unsaved_shutdown : list action :=
  [Change PA_NAMEREG_SINK (Some "alsa_output"); Tick 1000000; Stop].

(** A world in which the path of the state files cannot be had. *)
Definition world_homeless : world :=
  mkWorld None None ["alsa_output"; "null"] ["alsa_input"] ∅ 0 ∅ ∅ ∅ ∅ ∅ [] []
    None ∅ 1%nat None.

(** ** Reasoning about computations *)

(** Unfold the monad and the record updates, and nothing of the maps. *)
Ltac wsimpl :=
  unfold update, exec, filename; unfold bind, ret, abort, gets, modify, deref;
  cbn [default_sink_name default_source_name sinks sources subscriptions now
       time_events files read_error write_error write_limit trace log state_dir
       heap
       next_loc m_userdata
       set_default_sink_name set_default_source_name set_subscriptions set_now
       set_time_events set_files set_trace set_log set_heap set_next_loc
       set_m_userdata
       subscription time_event sink_filename source_filename modified
       set_subscription set_time_event set_sink_filename set_source_filename
       set_modified negb fst snd].

Ltac fsimpl_in H :=
  cbn [flushed write_slot
       default_sink_name default_source_name sinks sources subscriptions now
       time_events files read_error write_error write_limit trace log state_dir
       heap
       next_loc m_userdata
       set_default_sink_name set_default_source_name set_subscriptions set_now
       set_time_events set_files set_trace set_log set_heap set_next_loc
       set_m_userdata
       subscription time_event sink_filename source_filename modified
       set_subscription set_time_event set_sink_filename set_source_filename
       set_modified] in H.

Ltac fsimpl :=
  cbn [flushed write_slot
       default_sink_name default_source_name sinks sources subscriptions now
       time_events files read_error write_error write_limit trace log state_dir
       heap
       next_loc m_userdata
       set_default_sink_name set_default_source_name set_subscriptions set_now
       set_time_events set_files set_trace set_log set_heap set_next_loc
       set_m_userdata
       subscription time_event sink_filename source_filename modified
       set_subscription set_time_event set_sink_filename set_source_filename
       set_modified].

Lemma save_clean (u : loc) (ud : userdata) (w : world) :
  heap w !! u = Some ud -> modified ud = false -> save u w = Some (tt, w).
Proof.
  intros Hu Hm. unfold save. wsimpl. rewrite Hu. wsimpl. rewrite Hm. reflexivity.
Qed.

Lemma save_dirty (u : loc) (ud : userdata) (sf sof : string) (w : world) :
  heap w !! u = Some ud -> modified ud = true ->
  sink_filename ud = Some sf -> source_filename ud = Some sof ->
  save u w =
    Some (tt, set_heap (<[u := set_modified false ud]> (heap w)) (flushed sf sof w)).
Proof.
  intros Hu Hm Hsf Hsof. unfold save. wsimpl. rewrite Hu. wsimpl.
  rewrite Hm, Hsf, Hsof. wsimpl.
  unfold flushed, write_slot, fopen_w, fprintf, pa_log,
    pa_namereg_get_default_sink_name, pa_namereg_get_default_source_name.
  wsimpl.
  destruct (write_error w !! sf) as [e1|] eqn:E1; wsimpl;
    rewrite ?E1; destruct (write_error w !! sof) as [e2|] eqn:E2; wsimpl;
    rewrite ?Hu; wsimpl;
    rewrite ?lookup_insert_eq, ?insert_insert_eq, <- ?app_assoc; reflexivity.
Qed.

Lemma subscribe_cb_idle t idx (u : loc) (ud : userdata) (w : world) :
  heap w !! u = Some ud -> time_event ud = None ->
  subscribe_cb t idx u w = Some (tt, armed u ud w).
Proof.
  intros Hu Ht. unfold subscribe_cb, pa_gettimeofday, time_new, pa_timeval_add.
  wsimpl. rewrite Hu. wsimpl. rewrite lookup_insert_eq. wsimpl. rewrite Ht.
  wsimpl. rewrite lookup_insert_eq. wsimpl. rewrite insert_insert_eq.
  reflexivity.
Qed.

Lemma subscribe_cb_armed t idx (u : loc) (ud : userdata) (e : loc) (w : world) :
  heap w !! u = Some ud -> time_event ud = Some e ->
  subscribe_cb t idx u w =
    Some (tt, set_heap (<[u := set_modified true ud]> (heap w)) w).
Proof.
  intros Hu Ht. unfold subscribe_cb. wsimpl. rewrite Hu. wsimpl.
  rewrite lookup_insert_eq. wsimpl. rewrite Ht. reflexivity.
Qed.

Lemma post_live t idx (u : loc) (ud : userdata) (w : world) :
  live u ud w ->
  pa_subscription_post t idx w =
    (if facility_eqb (fst t) EVENT_SERVER then subscribe_cb t idx u w
     else Some (tt, w)).
Proof.
  intros (_ & Hu & (s & _ & Hs) & _). unfold pa_subscription_post. wsimpl.
  rewrite Hs, map_to_list_singleton. cbn [deliver sub_mask sub_userdata].
  unfold pa_subscription_match_flags, PA_SUBSCRIPTION_MASK_SERVER.
  cbn [existsb]. rewrite orb_false_r. wsimpl.
  destruct (facility_eqb (fst t) EVENT_SERVER); [|reflexivity].
  destruct (subscribe_cb t idx u w) as [[[] w']|]; reflexivity.
Qed.

Lemma post_unloaded t idx (w : world) :
  subscriptions w = ∅ -> pa_subscription_post t idx w = Some (tt, w).
Proof.
  intros Hs. unfold pa_subscription_post. wsimpl.
  rewrite Hs, map_to_list_empty. reflexivity.
Qed.

Lemma mainloop_fire_eq (e : loc) (w : world) :
  mainloop_fire e w =
    match time_events w !! e with
    | Some (mkTimeEvent (Some d) u) =>
        if d <=? now w
        then time_cb e u (set_time_events (<[e := mkTimeEvent None u]> (time_events w)) w)
        else None
    | _ => None
    end.
Proof.
  unfold mainloop_fire. wsimpl.
  destruct (time_events w !! e) as [[[d|] u]|]; try reflexivity.
  destruct (d <=? now w); reflexivity.
Qed.

Lemma time_cb_dirty (e0 e u : loc) (ud : userdata) (sf sof : string)
    (x : pa_time_event) (w : world) :
  heap w !! u = Some ud -> modified ud = true ->
  sink_filename ud = Some sf -> source_filename ud = Some sof ->
  time_event ud = Some e -> time_events w !! e = Some x ->
  time_cb e0 u w =
    Some (tt, set_heap (<[u := set_time_event None (set_modified false ud)]> (heap w))
                (set_time_events (delete e (time_events w)) (flushed sf sof w))).
Proof.
  intros Hu Hm Hsf Hsof Hte Hx. unfold time_cb.
  unfold bind at 1. rewrite (save_dirty u ud sf sof) by assumption.
  wsimpl. rewrite lookup_insert_eq. wsimpl. rewrite Hte.
  unfold time_free. fsimpl. rewrite Hx. wsimpl. fsimpl.
  rewrite lookup_insert_eq. wsimpl. rewrite insert_insert_eq. reflexivity.
Qed.

Lemma fire_live (e : loc) (u : loc) (ud : userdata) (sf sof : string) (w : world) :
  live u ud w ->
  sink_filename ud = Some sf -> source_filename ud = Some sof ->
  forall w', mainloop_fire e w = Some (tt, w') ->
  time_event ud = Some e /\
  (exists d, time_events w = {[e := mkTimeEvent (Some d) u]} /\ d <= now w) /\
  w' = set_heap (<[u := set_time_event None (set_modified false ud)]> (heap w))
         (set_time_events ∅ (flushed sf sof w)).
Proof.
  intros (Hm & Hu & _ & _ & Ht) Hsf Hsof w' Hf.
  rewrite mainloop_fire_eq in Hf.
  destruct (time_event ud) as [e'|] eqn:Ete.
  - destruct Ht as (Hmod & d & Hte). rewrite Hte in Hf.
    destruct (decide (e' = e)) as [->|Hne].
    + rewrite lookup_singleton_eq in Hf.
      destruct (d <=? now w) eqn:Hd; [|discriminate].
      split; [reflexivity|]. split.
      { exists d. split; [exact Hte | lia]. }
      rewrite (time_cb_dirty e e u ud sf sof (mkTimeEvent None u)) in Hf;
        try assumption; [|apply lookup_insert_eq].
      injection Hf as <-. cbn [time_events set_time_events].
      rewrite insert_singleton_eq, delete_singleton_eq. reflexivity.
    + rewrite lookup_singleton_ne in Hf by assumption. discriminate.
  - rewrite Ht, lookup_empty in Hf. discriminate.
Qed.

Lemma live_frame (u : loc) (ud : userdata) (w w' : world) :
  m_userdata w' = m_userdata w -> heap w' = heap w ->
  subscriptions w' = subscriptions w -> time_events w' = time_events w ->
  live u ud w -> live u ud w'.
Proof.
  intros Hm Hh Hs Ht. unfold live. rewrite Hm, Hh, Hs, Ht. trivial.
Qed.

Lemma live_armed (u : loc) (ud : userdata) (w : world) :
  live u ud w -> time_event ud = None ->
  live u (set_time_event (Some (next_loc w)) (set_modified true ud)) (armed u ud w).
Proof.
  intros (Hm & Hu & Hs & Hf & Ht) Hte. rewrite Hte in Ht.
  unfold live, armed. fsimpl. rewrite lookup_insert_eq, Ht, insert_empty.
  repeat split; try assumption. eexists. reflexivity.
Qed.

Lemma live_set_modified (u : loc) (ud : userdata) (b : bool) (w : world) :
  live u ud w -> (time_event ud <> None -> b = true) ->
  live u (set_modified b ud) (set_heap (<[u := set_modified b ud]> (heap w)) w).
Proof.
  intros (Hm & Hu & Hs & Hf & Ht) Hb.
  unfold live. fsimpl. rewrite lookup_insert_eq.
  repeat split; try assumption.
  destruct (time_event ud); [|assumption].
  destruct Ht as (_ & Hd). split; [apply Hb; discriminate | assumption].
Qed.

Lemma live_fired (u : loc) (ud : userdata) (sf sof : string) (w : world) :
  live u ud w ->
  live u (set_time_event None (set_modified false ud))
    (set_heap (<[u := set_time_event None (set_modified false ud)]> (heap w))
       (set_time_events ∅ (flushed sf sof w))).
Proof.
  intros (Hm & Hu & Hs & Hf & Ht).
  unfold live. fsimpl. rewrite lookup_insert_eq.
  repeat split; assumption.
Qed.

(** [pa__done] on a loaded module. *)
Lemma done_live (u : loc) (ud : userdata) (sf sof : string) (w : world) :
  live u ud w ->
  sink_filename ud = Some sf -> source_filename ud = Some sof ->
  pa__done w =
    Some (tt, set_heap (delete u (heap w))
                (set_time_events ∅
                   (set_subscriptions ∅
                      (if modified ud then flushed sf sof w else w)))).
Proof.
  intros (Hm & Hu & (s & Hsub & Hs) & _ & Ht) Hsf Hsof.
  unfold pa__done. unfold bind at 1, gets at 1. rewrite Hm.
  unfold bind at 1. destruct (modified ud) eqn:Hmod.
  - rewrite (save_dirty u ud sf sof) by assumption.
    wsimpl. rewrite lookup_insert_eq. wsimpl. rewrite Hsub.
    unfold pa_subscription_free, time_free, pa_xfree. wsimpl. fsimpl.
    rewrite Hs, lookup_singleton_eq, delete_singleton_eq.
    destruct (time_event ud) as [e|].
    + destruct Ht as (_ & d & Hte). fsimpl.
      rewrite Hte, lookup_singleton_eq, delete_singleton_eq. wsimpl.
      rewrite lookup_insert_eq. wsimpl. rewrite delete_insert_eq. reflexivity.
    + wsimpl. rewrite lookup_insert_eq. wsimpl. rewrite delete_insert_eq.
      unfold set_heap, set_time_events, set_subscriptions. fsimpl.
      rewrite Ht. reflexivity.
  - rewrite (save_clean u ud) by assumption.
    wsimpl. rewrite Hu. wsimpl. rewrite Hsub.
    unfold pa_subscription_free, time_free, pa_xfree. wsimpl.
    rewrite Hs, lookup_singleton_eq, delete_singleton_eq.
    destruct (time_event ud) as [e|].
    + destruct Ht as (Hm' & _). congruence.
    + wsimpl. rewrite Hu. wsimpl.
      unfold set_heap, set_time_events, set_subscriptions. fsimpl.
      rewrite Ht. reflexivity.
Qed.

Lemma done_unloaded (w : world) : unloaded w -> pa__done w = None.
Proof.
  intros (_ & _ & u & Hm & Hu). unfold pa__done, save. wsimpl.
  rewrite Hm. wsimpl. rewrite Hu. reflexivity.
Qed.

Lemma unloaded_done (u : loc) (ud : userdata) (sf sof : string) (w : world) :
  live u ud w ->
  unloaded (set_heap (delete u (heap w))
              (set_time_events ∅
                 (set_subscriptions ∅
                    (if modified ud then flushed sf sof w else w)))).
Proof.
  intros (Hm & _). unfold unloaded. fsimpl. repeat split.
  exists u. split; [|apply lookup_delete_eq].
  destruct (modified ud); fsimpl; assumption.
Qed.

Lemma step_change_eq (t : pa_namereg_type) (name : option string) (w : world) :
  step (Change t name) w =
    pa_subscription_post (EVENT_SERVER, EVENT_CHANGE) PA_INVALID_INDEX
      (match t with
       | PA_NAMEREG_SINK => set_default_sink_name name w
       | PA_NAMEREG_SOURCE => set_default_source_name name w
       end).
Proof. destruct t; reflexivity. Qed.

Lemma step_tick_eq (dt : Z) (w : world) :
  step (Tick dt) w =
    if 0 <=? dt then Some (tt, set_now (now w + dt) w) else None.
Proof. cbn [step]. destruct (0 <=? dt); reflexivity. Qed.

Lemma bind_inv {A B} (m : M A) (k : A -> M B) (w : world) (r : B * world) :
  bind m k w = Some r -> exists a w', m w = Some (a, w') /\ k a w' = Some r.
Proof.
  unfold bind. destruct (m w) as [[a w']|]; [|discriminate].
  intros H. exists a, w'. split; [reflexivity | exact H].
Qed.

(** ** What [load] leaves alone *)

Lemma load_frame_refl (w : world) : load_frame w w.
Proof. unfold load_frame. repeat split. Qed.

Lemma load_frame_trans (w1 w2 w3 : world) :
  load_frame w1 w2 -> load_frame w2 w3 -> load_frame w1 w3.
Proof.
  unfold load_frame. intros H1 H2.
  repeat match goal with H : _ /\ _ |- _ => destruct H end.
  repeat split; congruence.
Qed.

Lemma keeps_bind {A B} (m : M A) (k : A -> M B) :
  keeps m -> (forall a, keeps (k a)) -> keeps (bind m k).
Proof.
  intros Hm Hk w b w' H. apply bind_inv in H as (a & w1 & H1 & H2).
  eapply load_frame_trans; [eapply Hm, H1 | eapply Hk, H2].
Qed.

Lemma keeps_ret {A} (a : A) : keeps (ret a).
Proof. intros w b w' H. injection H as _ <-. apply load_frame_refl. Qed.

Lemma keeps_abort {A} : keeps (@abort A).
Proof. intros w b w' H. discriminate. Qed.

Lemma keeps_gets {A} (f : world -> A) : keeps (gets f).
Proof. intros w b w' H. injection H as _ <-. apply load_frame_refl. Qed.

Lemma keeps_deref (p : loc) : keeps (deref p).
Proof.
  intros w b w' H. unfold deref in H. destruct (heap w !! p); [|discriminate].
  injection H as _ <-. apply load_frame_refl.
Qed.

Lemma keeps_filename (f : option string) : keeps (filename f).
Proof. destruct f; [apply keeps_ret | apply keeps_abort]. Qed.

Lemma keeps_fopen_r (path : string) : keeps (fopen_r path).
Proof. intros w b w' H. injection H as _ <-. unfold load_frame. repeat split. Qed.

Lemma keeps_pa_log (msg : string) : keeps (pa_log msg).
Proof. intros w b w' H. injection H as _ <-. unfold load_frame. repeat split. Qed.

Lemma keeps_pa_log_info (msg : string) : keeps (pa_log_info msg).
Proof. intros w b w' H. injection H as _ <-. unfold load_frame. repeat split. Qed.

Lemma keeps_pa_namereg_get (name : string) (t : pa_namereg_type) :
  keeps (pa_namereg_get name t).
Proof. apply keeps_gets. Qed.

Lemma keeps_pa_namereg_set_default (name : option string) (t : pa_namereg_type) :
  keeps (pa_namereg_set_default name t).
Proof.
  intros w b w' H. destruct t; injection H as _ <-; unfold load_frame; repeat split.
Qed.

Create HintDb keeps.
#[local] Hint Resolve keeps_ret keeps_abort keeps_gets keeps_deref keeps_filename
  keeps_fopen_r keeps_pa_log keeps_pa_log_info keeps_pa_namereg_get
  keeps_pa_namereg_set_default : keeps.

Ltac keeps_step :=
  match goal with
  | |- keeps (bind _ _) => apply keeps_bind; [|intros ?]
  | |- keeps (match ?x with _ => _ end) => destruct x
  | |- keeps (if ?x then _ else _) => destruct x
  | |- keeps (let _ := _ in _) => cbv zeta
  | |- keeps _ => solve [auto with keeps]
  end.

Lemma keeps_load_sink (u : loc) : keeps (load_sink u).
Proof. unfold load_sink. repeat keeps_step. Qed.

Lemma keeps_load_source (u : loc) : keeps (load_source u).
Proof. unfold load_source. repeat keeps_step. Qed.

Lemma keeps_load (u : loc) : keeps (load u).
Proof.
  unfold load. apply keeps_bind; [apply keeps_load_sink|].
  intros _. apply keeps_load_source.
Qed.

(** ** Loading the module *)

Lemma pa__init_ok (d : string) (w : world) :
  state_dir w = Some d ->
  pa__init w =
    (load (next_loc w) ;;
     s <- pa_subscription_new PA_SUBSCRIPTION_MASK_SERVER (next_loc w) ;;
     update (next_loc w) (set_subscription (Some s)) ;;
     ret 0)
      (allocated (Some (d ++ "/" ++ "default-sink"))
         (Some (d ++ "/" ++ "default-source")) w).
Proof.
  intros Hd. unfold pa__init, pa_xnew0, pa_state_path. wsimpl.
  rewrite lookup_insert_eq, Hd. wsimpl. rewrite lookup_insert_eq. wsimpl.
  rewrite Hd, !insert_insert_eq. reflexivity.
Qed.

Lemma pa__init_fail (w : world) :
  state_dir w = None ->
  pa__init w = (pa__done ;; ret (-1)) (allocated None None w).
Proof.
  intros Hd. unfold pa__init, pa_xnew0, pa_state_path. wsimpl.
  rewrite lookup_insert_eq, Hd. wsimpl.
  rewrite !insert_insert_eq. reflexivity.
Qed.

Lemma init_tail (u : loc) (ud : userdata) (w : world) :
  heap w !! u = Some ud ->
  (s <- pa_subscription_new PA_SUBSCRIPTION_MASK_SERVER u ;;
   update u (set_subscription (Some s)) ;;
   ret 0) w = Some (0, subscribed u ud w).
Proof.
  intros Hu. unfold pa_subscription_new. wsimpl. rewrite Hu. reflexivity.
Qed.

(** A successful [pa__init] leaves a loaded module, idle and clean, and
    apart from the module's own structures it has changed what [load]
    changes. *)
Lemma init_live (w0 w1 : world) :
  boot w0 -> pa__init w0 = Some (0, w1) ->
  exists d ud,
    state_dir w0 = Some d /\
    live (next_loc w0) ud w1 /\ time_event ud = None /\ modified ud = false /\
    sink_filename ud = Some (d ++ "/" ++ "default-sink") /\
    source_filename ud = Some (d ++ "/" ++ "default-source") /\
    files w1 = files w0 /\ write_error w1 = write_error w0 /\ now w1 = now w0.
Proof.
  intros (Hs & Ht & Hh & Hm) H.
  destruct (state_dir w0) as [d|] eqn:Hd.
  - rewrite (pa__init_ok d) in H by assumption.
    apply bind_inv in H as ([] & w2 & Hload & Htail).
    apply keeps_load in Hload.
    destruct Hload as (_ & _ & Es & En & Et & Ef & _ & Ew & _ & Eh & El & Em).
    unfold allocated in *. fsimpl_in Es. fsimpl_in En. fsimpl_in Et.
    fsimpl_in Ef. fsimpl_in Ew. fsimpl_in Eh. fsimpl_in El. fsimpl_in Em.
    erewrite init_tail in Htail by (rewrite Eh; apply lookup_insert_eq).
    injection Htail as <-.
    eexists d, _. split; [reflexivity|]. split.
    + unfold live, subscribed. fsimpl. rewrite lookup_insert_eq.
      repeat split; try assumption.
      * eexists. split; [reflexivity|]. rewrite Es, Hs, insert_empty, El.
        reflexivity.
      * eexists _, _. split; reflexivity.
      * fsimpl. rewrite Et. exact Ht.
    + unfold subscribed. fsimpl. repeat split; assumption.
  - rewrite pa__init_fail in H by assumption.
    apply bind_inv in H as ([] & w2 & _ & Hret). discriminate.
Qed.

(** ** The invariant of the event loop *)

Lemma subscribe_cb_live t idx (u : loc) (ud : userdata) (w : world) :
  live u ud w ->
  exists ud' w',
    subscribe_cb t idx u w = Some (tt, w') /\ live u ud' w' /\
    modified ud' = true /\ time_event ud' <> None /\
    sink_filename ud' = sink_filename ud /\
    source_filename ud' = source_filename ud /\ quiet w w'.
Proof.
  intros Hl. pose proof Hl as (_ & Hu & _).
  destruct (time_event ud) as [e|] eqn:Hte.
  - eexists _, _. split; [exact (subscribe_cb_armed t idx u ud e w Hu Hte)|].
    split; [apply (live_set_modified u ud true w Hl); reflexivity|].
    split; [reflexivity|]. split; [cbn [time_event set_modified]; congruence|].
    unfold quiet. repeat split.
  - eexists _, _. split; [exact (subscribe_cb_idle t idx u ud w Hu Hte)|].
    split; [apply live_armed; assumption|].
    split; [reflexivity|]. split; [discriminate|].
    unfold quiet. repeat split.
Qed.

Lemma live_files (u : loc) (ud : userdata) (w : world) :
  live u ud w ->
  exists sf sof, sink_filename ud = Some sf /\ source_filename ud = Some sof.
Proof. intros (_ & _ & _ & H & _). exact H. Qed.

Lemma post_loaded t idx (w w' : world) :
  loaded w -> pa_subscription_post t idx w = Some (tt, w') -> loaded w'.
Proof.
  intros (u & ud & Hl) H. rewrite (post_live t idx u ud) in H by assumption.
  destruct (facility_eqb (fst t) EVENT_SERVER).
  - destruct (subscribe_cb_live t idx u ud w Hl) as (ud' & w2 & E & Hl' & _).
    rewrite E in H. injection H as <-. exists u, ud'. exact Hl'.
  - injection H as <-. exists u, ud. exact Hl.
Qed.

Lemma step_loaded (a : action) (w w' : world) :
  loaded w -> step a w = Some (tt, w') -> module_inv w'.
Proof.
  intros Hl H. destruct a as [t name|t idx|dt|e|].
  - left. rewrite step_change_eq in H.
    eapply post_loaded; [|exact H].
    destruct Hl as (u & ud & Hl). exists u, ud.
    destruct t; (eapply live_frame; [..|exact Hl]; reflexivity).
  - left. eapply post_loaded; [exact Hl | exact H].
  - left. rewrite step_tick_eq in H. destruct (0 <=? dt); [|discriminate].
    injection H as <-. destruct Hl as (u & ud & Hl). exists u, ud.
    eapply live_frame; [..|exact Hl]; reflexivity.
  - left. destruct Hl as (u & ud & Hl).
    destruct (live_files u ud w Hl) as (sf & sof & Hsf & Hsof).
    destruct (fire_live e u ud sf sof w Hl Hsf Hsof w' H) as (_ & _ & ->).
    eexists u, _. apply live_fired. exact Hl.
  - right. destruct Hl as (u & ud & Hl).
    destruct (live_files u ud w Hl) as (sf & sof & Hsf & Hsof).
    cbn [step] in H. rewrite (done_live u ud sf sof) in H by assumption.
    injection H as <-. apply unloaded_done. exact Hl.
Qed.

Lemma step_unloaded (a : action) (w w' : world) :
  unloaded w -> step a w = Some (tt, w') -> unloaded w'.
Proof.
  intros Hu H. pose proof Hu as (Hs & Ht & Hm).
  destruct a as [t name|t idx|dt|e|].
  - rewrite step_change_eq in H. rewrite post_unloaded in H by (destruct t; exact Hs).
    injection H as <-. destruct t; exact Hu.
  - cbn [step] in H. rewrite post_unloaded in H by exact Hs.
    injection H as <-. exact Hu.
  - rewrite step_tick_eq in H. destruct (0 <=? dt); [|discriminate].
    injection H as <-. exact Hu.
  - cbn [step] in H. rewrite mainloop_fire_eq, Ht, lookup_empty in H. discriminate.
  - cbn [step] in H. rewrite done_unloaded in H by exact Hu. discriminate.
Qed.

Lemma step_inv (a : action) (w w' : world) :
  module_inv w -> step a w = Some (tt, w') -> module_inv w'.
Proof.
  intros [Hl|Hu] H.
  - eapply step_loaded; eassumption.
  - right. eapply step_unloaded; eassumption.
Qed.

Lemma run_inv (acts : list action) (w w' : world) :
  module_inv w -> exec (run acts) w = Some w' -> module_inv w'.
Proof.
  revert w. induction acts as [|a rest IH]; intros w Hi H.
  - injection H as <-. exact Hi.
  - unfold exec in H. cbn [run] in H.
    destruct (bind (step a) (fun _ => run rest) w) as [[[] w2]|] eqn:E;
      [|discriminate].
    injection H as <-.
    apply bind_inv in E as ([] & w1 & Hstep & Hrun).
    apply (IH w1); [eapply step_inv; eassumption|].
    unfold exec. rewrite Hrun. reflexivity.
Qed.

Lemma reachable_inv (w0 : world) (acts : list action) (w : world) :
  reachable w0 acts w -> module_inv w.
Proof.
  intros (Hb & w1 & Hi & Hr).
  eapply run_inv; [|exact Hr]. left.
  destruct (init_live w0 w1 Hb Hi) as (d & ud & _ & Hl & _).
  exists (next_loc w0), ud. exact Hl.
Qed.

(** ** Reading a name back *)

Lemma fgets_room_length (room : nat) (content : string) :
  (String.length (fgets_room room content) <= room)%nat.
Proof.
  revert content. induction room as [|room IH]; intros [|c rest]; cbn; try lia.
  destruct (Ascii.eqb c LF); cbn; [lia|]. specialize (IH rest). lia.
Qed.

Lemma c_str_length (buf : string) :
  (String.length (c_str buf) <= String.length buf)%nat.
Proof.
  induction buf as [|c rest IH]; cbn; [lia|].
  destruct (Ascii.eqb c NUL); cbn; lia.
Qed.

Lemma str_take_length (n : nat) (s : string) :
  (String.length (str_take n s) <= String.length s)%nat.
Proof.
  revert s. induction n as [|n IH]; intros [|c rest]; cbn; try lia.
  specialize (IH rest). lia.
Qed.

Lemma read_name_length (content : string) :
  (String.length (read_name content) <= sizeof_ln - 2)%nat.
Proof.
  unfold read_name, pa_strip_nl, fgets.
  pose proof (str_take_length
                (strcspn_crlf (c_str (fgets_room (sizeof_ln - 1 - 1) content)))
                (c_str (fgets_room (sizeof_ln - 1 - 1) content))).
  pose proof (c_str_length (fgets_room (sizeof_ln - 1 - 1) content)).
  pose proof (fgets_room_length (sizeof_ln - 1 - 1) content).
  unfold sizeof_ln in *. lia.
Qed.

Lemma is_prefix_refl (s : string) : is_prefix s s.
Proof.
  exists EmptyString. induction s as [|c s IH]; [reflexivity|].
  change (String c s = String c (s ++ EmptyString)). f_equal. exact IH.
Qed.

Lemma is_prefix_nil (s : string) : is_prefix EmptyString s.
Proof. exists s. reflexivity. Qed.

Lemma is_prefix_cons (c : ascii) (p s : string) :
  is_prefix p s -> is_prefix (String c p) (String c s).
Proof. intros [rest ->]. exists rest. reflexivity. Qed.

Lemma is_prefix_trans (a b c : string) :
  is_prefix a b -> is_prefix b c -> is_prefix a c.
Proof.
  intros [r1 ->] [r2 ->]. exists (r1 ++ r2).
  induction a as [|x a IH]; [reflexivity|].
  change (String x ((a ++ r1) ++ r2) = String x (a ++ r1 ++ r2)).
  f_equal. exact IH.
Qed.

Lemma fgets_room_prefix (room : nat) (content : string) :
  is_prefix (fgets_room room content) content.
Proof.
  revert content. induction room as [|room IH]; intros [|c rest]; cbn;
    try apply is_prefix_nil.
  destruct (Ascii.eqb c LF); apply is_prefix_cons; [apply is_prefix_nil | apply IH].
Qed.

Lemma c_str_prefix (buf : string) : is_prefix (c_str buf) buf.
Proof.
  induction buf as [|c rest IH]; cbn; [apply is_prefix_nil|].
  destruct (Ascii.eqb c NUL); [apply is_prefix_nil | apply is_prefix_cons, IH].
Qed.

Lemma str_take_prefix (n : nat) (s : string) : is_prefix (str_take n s) s.
Proof.
  revert s. induction n as [|n IH]; intros [|c rest]; cbn;
    try apply is_prefix_nil.
  apply is_prefix_cons, IH.
Qed.

Lemma read_name_prefix (content : string) : is_prefix (read_name content) content.
Proof.
  unfold read_name, pa_strip_nl, fgets.
  eapply is_prefix_trans; [apply str_take_prefix|].
  eapply is_prefix_trans; [apply c_str_prefix | apply fgets_room_prefix].
Qed.

(** What [load] reads back from the line [save] wrote for [name]: the
    first [sizeof(ln) - 2] characters of the name. *)
Lemma read_back_room (room : nat) (name : string) :
  plain name = true ->
  pa_strip_nl (c_str (fgets_room room (name ++ nl))) = str_take room name.
Proof.
  revert name. induction room as [|room IH]; intros name Hp.
  - destruct name; reflexivity.
  - destruct name as [|c rest]; [reflexivity|].
    cbn [plain] in Hp.
    apply andb_prop in Hp as [Hp Hrest]. apply andb_prop in Hp as [Hp Hlf].
    apply andb_prop in Hp as [Hnul Hcr].
    apply negb_true_iff in Hnul, Hcr, Hlf.
    change (String c rest ++ nl) with (String c (rest ++ nl)).
    cbn [fgets_room]. rewrite Hlf. cbn [c_str]. rewrite Hnul.
    unfold pa_strip_nl. cbn [strcspn_crlf]. rewrite Hcr, Hlf.
    cbn [orb str_take]. f_equal. apply (IH rest Hrest).
Qed.

Lemma read_back (name : string) :
  plain name = true -> read_name (name ++ nl) = str_take (sizeof_ln - 2) name.
Proof. intros Hp. unfold read_name, fgets. apply read_back_room, Hp. Qed.

(** ** The two halves of [load], by class *)

Lemma load_class_configured (t : pa_namereg_type) (u : loc) (ud : userdata)
    (n : string) (w : world) :
  heap w !! u = Some ud -> default_name t w = Some n ->
  exists msg,
    load_class t u w = Some (tt, set_log (log w ++ [(PA_LOG_INFO, msg)]) w).
Proof.
  intros Hu Hc.
  destruct t; cbn [default_name] in Hc; eexists;
    unfold load_class, load_sink, load_source, pa_log_info; wsimpl;
    rewrite Hu; wsimpl; rewrite Hc; reflexivity.
Qed.

Lemma load_class_absent (t : pa_namereg_type) (u : loc) (ud : userdata)
    (path : string) (w : world) :
  heap w !! u = Some ud -> slot t ud = Some path -> default_name t w = None ->
  open_outcome path w = Some ENOENT ->
  load_class t u w =
    Some (tt, set_trace (trace w ++ [Fopen path ModeR (Some ENOENT)]) w).
Proof.
  intros Hu Hp Hc Ho. unfold open_outcome in Ho.
  destruct t; cbn [default_name slot] in Hc, Hp;
    unfold load_class, load_sink, load_source, fopen_r; wsimpl;
    rewrite Hu; wsimpl; rewrite Hc, Hp; wsimpl;
    (destruct (read_error w !! path) as [e|];
     [injection Ho as -> | destruct (files w !! path); [discriminate|]]);
    reflexivity.
Qed.

Lemma load_class_open_error (t : pa_namereg_type) (u : loc) (ud : userdata)
    (path : string) (e : errno) (w : world) :
  heap w !! u = Some ud -> slot t ud = Some path -> default_name t w = None ->
  open_outcome path w = Some e -> e <> ENOENT ->
  load_class t u w =
    Some (tt, set_log (log w ++ [(PA_LOG_ERROR,
                                  "Failed to load default sink: " ++ pa_cstrerror e)])
                (set_trace (trace w ++ [Fopen path ModeR (Some e)]) w)).
Proof.
  intros Hu Hp Hc Ho He. unfold open_outcome in Ho.
  assert (errno_eqb e ENOENT = false) as Hb
    by (destruct e; try reflexivity; congruence).
  destruct t; cbn [default_name slot] in Hc, Hp;
    unfold load_class, load_sink, load_source, fopen_r, pa_log; wsimpl;
    rewrite Hu; wsimpl; rewrite Hc, Hp; wsimpl;
    (destruct (read_error w !! path) as [e'|];
     [injection Ho as -> | destruct (files w !! path); [discriminate|congruence]]);
    rewrite Hb; reflexivity.
Qed.

Lemma load_class_opened (t : pa_namereg_type) (u : loc) (ud : userdata)
    (path content : string) (w : world) :
  heap w !! u = Some ud -> slot t ud = Some path -> default_name t w = None ->
  read_error w !! path = None -> files w !! path = Some content ->
  exists msg,
    load_class t u w =
      Some (tt, set_log (log w ++ [(PA_LOG_INFO, msg)])
                  (set_default_name t
                     (if negb (is_empty (read_name content))
                         && registered t (read_name content) w
                      then Some (read_name content) else None)
                     (set_trace (trace w ++ [Fopen path ModeR None]) w))).
Proof.
  intros Hu Hp Hc Hr Hf.
  destruct t; cbn [default_name slot] in Hc, Hp;
    unfold load_class, load_sink, load_source, fopen_r, pa_log_info,
      pa_namereg_get, pa_namereg_set_default, registered, set_default_name;
    wsimpl; rewrite Hu; wsimpl; rewrite Hc, Hp; wsimpl; rewrite Hr, Hf;
    (destruct (read_name content) as [|c ln] eqn:Hln;
     [|wsimpl; match goal with |- context [bool_decide ?P] =>
                 destruct (bool_decide P) end];
     eexists; cbn [is_empty negb andb];
     unfold set_default_sink_name, set_default_source_name, set_log, set_trace;
     wsimpl; rewrite ?Hc; reflexivity).
Qed.

(** [save] returns, whatever the file names and the file system are, and
    leaves the flag cleared. *)
Lemma save_total (u : loc) (ud : userdata) (w : world) :
  heap w !! u = Some ud ->
  exists w1, save u w = Some (tt, w1) /\
             heap w1 !! u = Some (set_modified false ud).
Proof.
  intros Hu. destruct (modified ud) eqn:Hm.
  - destruct (sink_filename ud) as [sf|] eqn:Hsf;
      destruct (source_filename ud) as [sof|] eqn:Hsof;
      try destruct (write_error w !! sf) as [e1|] eqn:E1;
      try destruct (write_error w !! sof) as [e2|] eqn:E2;
      (eexists; split;
       [unfold save, fopen_w, fprintf, pa_log,
          pa_namereg_get_default_sink_name, pa_namereg_get_default_source_name;
        wsimpl; rewrite Hu; wsimpl; rewrite Hm, Hsf, Hsof; wsimpl;
        rewrite ?E1; wsimpl; rewrite ?E2; wsimpl; rewrite ?Hu; reflexivity
       | wsimpl; apply lookup_insert_eq]).
  - exists w. split; [apply (save_clean u ud); assumption|].
    rewrite Hu. f_equal. destruct ud. cbn in Hm. subst. reflexivity.
Qed.

(** One half of [load] returns; it leaves the memory and the default of the
    other class alone, and opens no file but the slot of its own class, and
    that only when no default is configured for it. *)
Lemma load_class_shape (t : pa_namereg_type) (u : loc) (ud : userdata)
    (path : string) (w : world) :
  heap w !! u = Some ud -> slot t ud = Some path ->
  exists w',
    load_class t u w = Some (tt, w') /\ heap w' = heap w /\
    default_name (other t) w' = default_name (other t) w /\
    (forall n, default_name t w = Some n -> default_name t w' = Some n) /\
    exists delta : list io_event,
      trace w' = (trace w ++ delta)%list /\
      (default_name t w <> None -> delta = []) /\
      forall ev, ev ∈ delta -> exists r, ev = Fopen path ModeR r.
Proof.
  intros Hu Hp.
  assert (forall ev : io_event, ev ∈ ([] : list io_event) ->
            exists r, ev = Fopen path ModeR r) as Hnil
    by (intros ev Hev; inversion Hev).
  assert (forall r (ev : io_event), ev ∈ [Fopen path ModeR r] ->
            exists r', ev = Fopen path ModeR r') as Hone
    by (intros r ev Hev; apply list_elem_of_singleton in Hev; eauto).
  destruct (default_name t w) as [n|] eqn:Hc.
  - destruct (load_class_configured t u ud n w Hu Hc) as (msg & ->).
    eexists. split; [reflexivity|]. split; [reflexivity|].
    split; [destruct t; reflexivity|]. split; [intros n0 [= <-]; destruct t; exact Hc|].
    exists []. split; [fsimpl; symmetry; apply app_nil_r|]. split; [reflexivity|].
    exact Hnil.
  - destruct (open_outcome path w) as [e|] eqn:Ho.
    + destruct (decide (e = ENOENT)) as [->|He].
      * rewrite (load_class_absent t u ud path w) by assumption.
        eexists. split; [reflexivity|]. split; [reflexivity|].
        split; [destruct t; reflexivity|]. split; [intros; discriminate|].
        eexists. split; [reflexivity|]. split; [congruence | apply Hone].
      * rewrite (load_class_open_error t u ud path e w) by assumption.
        eexists. split; [reflexivity|]. split; [reflexivity|].
        split; [destruct t; reflexivity|]. split; [intros; discriminate|].
        eexists. split; [reflexivity|]. split; [congruence | apply Hone].
    + unfold open_outcome in Ho.
      destruct (read_error w !! path) eqn:Hr; [discriminate|].
      destruct (files w !! path) as [content|] eqn:Hf; [|discriminate].
      destruct (load_class_opened t u ud path content w Hu Hp Hc Hr Hf)
        as (msg & ->).
      eexists. split; [reflexivity|]. split; [destruct t; reflexivity|].
      split; [destruct t; reflexivity|]. split; [intros; discriminate|].
      eexists. split; [destruct t; reflexivity|]. split; [congruence | apply Hone].
Qed.

(** ** What a flush leaves on disk and in the trace *)

Lemma flushed_trace (sf sof : string) (w : world) :
  trace (flushed sf sof w) =
    (trace w ++ slot_io sf (default_sink_name w) (write_error w !! sf)
       ++ slot_io sof (default_source_name w) (write_error w !! sof))%list.
Proof.
  unfold flushed, write_slot, slot_io. fsimpl. rewrite <- app_assoc.
  destruct (write_error w !! sf), (write_error w !! sof); reflexivity.
Qed.

Lemma flushed_sink_file (sf sof : string) (w : world) :
  sf <> sof -> write_error w !! sf = None ->
  files (flushed sf sof w) !! sf =
    Some (written (write_limit w !! sf) (pa_strempty (default_sink_name w) ++ nl)).
Proof.
  intros Hne He. unfold flushed, write_slot. fsimpl. rewrite He.
  destruct (write_error w !! sof).
  - apply lookup_insert_eq.
  - rewrite lookup_insert_ne by congruence. apply lookup_insert_eq.
Qed.

Lemma flushed_source_file (sf sof : string) (w : world) :
  write_error w !! sof = None ->
  files (flushed sf sof w) !! sof =
    Some (written (write_limit w !! sof)
            (pa_strempty (default_source_name w) ++ nl)).
Proof.
  intros He. unfold flushed, write_slot. fsimpl. rewrite He.
  apply lookup_insert_eq.
Qed.

Lemma live_not_unloaded (u : loc) (ud : userdata) (w : world) :
  live u ud w -> unloaded w -> False.
Proof.
  intros (Hm & Hu & _) (_ & _ & u' & Hm' & Hu'). congruence.
Qed.

Lemma live_timer_size (u : loc) (ud : userdata) (w : world) :
  live u ud w -> (size (time_events w) <= 1)%nat.
Proof.
  intros (_ & _ & _ & _ & Ht). destruct (time_event ud).
  - destruct Ht as (_ & d & ->). rewrite map_size_singleton. lia.
  - rewrite Ht, map_size_empty. lia.
Qed.

Lemma module_inv_timer_size (w : world) :
  module_inv w -> (size (time_events w) <= 1)%nat.
Proof.
  intros [(u & ud & Hl)|(_ & Ht & _)].
  - eapply live_timer_size, Hl.
  - rewrite Ht, map_size_empty. lia.
Qed.

Lemma facility_eqb_eq (a b : facility) : facility_eqb a b = true <-> a = b.
Proof. destruct a, b; cbn; split; congruence. Qed.

Lemma change_live (t : pa_namereg_type) (name : option string) (u : loc)
    (ud : userdata) (w : world) :
  live u ud w ->
  exists ud' w',
    step (Change t name) w = Some (tt, w') /\ live u ud' w' /\
    modified ud' = true /\ time_event ud' <> None /\
    sink_filename ud' = sink_filename ud /\
    source_filename ud' = source_filename ud /\
    quiet (set_default_name t name w) w' /\
    (forall e, time_event ud = Some e ->
       time_event ud' = Some e /\ time_events w' = time_events w) /\
    (time_event ud = None ->
       time_event ud' = Some (next_loc w) /\
       time_events w' =
         {[next_loc w :=
             mkTimeEvent (Some (now w + DEFAULT_SAVE_INTERVAL * PA_USEC_PER_SEC)) u]}).
Proof.
  intros Hl. rewrite step_change_eq.
  assert (live u ud (set_default_name t name w)) as Hl'
    by (destruct t; (eapply live_frame; [..|exact Hl]; reflexivity)).
  change (match t with
          | PA_NAMEREG_SINK => set_default_sink_name name w
          | PA_NAMEREG_SOURCE => set_default_source_name name w
          end) with (set_default_name t name w).
  rewrite (post_live _ _ u ud _ Hl'). cbn [fst facility_eqb].
  pose proof Hl' as (_ & Hu & _ & _ & Ht).
  destruct (time_event ud) as [e|] eqn:Hte.
  - eexists _, _. split; [exact (subscribe_cb_armed _ _ u ud e _ Hu Hte)|].
    split; [apply (live_set_modified u ud true _ Hl'); reflexivity|].
    split; [reflexivity|]. split; [cbn [time_event set_modified]; congruence|].
    split; [reflexivity|]. split; [reflexivity|].
    split; [unfold quiet; repeat split|].
    split; [|discriminate]. intros e' [= <-].
    split; [exact Hte | destruct t; reflexivity].
  - eexists _, _. split; [exact (subscribe_cb_idle _ _ u ud _ Hu Hte)|].
    split; [apply live_armed; assumption|].
    split; [reflexivity|]. split; [discriminate|].
    split; [reflexivity|]. split; [reflexivity|].
    split; [unfold quiet; repeat split|].
    split; [discriminate|]. intros _.
    split; [destruct t; reflexivity|].
    unfold armed. fsimpl. rewrite Ht, insert_empty. destruct t; reflexivity.
Qed.

Lemma exec_run_cons (a : action) (rest : list action) (w w1 : world) :
  step a w = Some (tt, w1) -> exec (run (a :: rest)) w = exec (run rest) w1.
Proof. intros H. unfold exec. cbn [run]. unfold bind. rewrite H. reflexivity. Qed.

Lemma exec_run_nil (w : world) : exec (run []) w = Some w.
Proof. reflexivity. Qed.

Lemma tick_live (dt : Z) (u : loc) (ud : userdata) (w : world) :
  live u ud w -> 0 <= dt ->
  step (Tick dt) w = Some (tt, set_now (now w + dt) w) /\
  live u ud (set_now (now w + dt) w).
Proof.
  intros Hl Hdt. rewrite step_tick_eq.
  rewrite (proj2 (Z.leb_le 0 dt) Hdt). split; [reflexivity|].
  eapply live_frame; [..|exact Hl]; reflexivity.
Qed.

Lemma quiet_set_default (t : pa_namereg_type) (name : option string)
    (w w' : world) :
  quiet (set_default_name t name w) w' ->
  trace w' = trace w /\ files w' = files w /\ write_error w' = write_error w /\
  log w' = log w /\ now w' = now w /\
  default_name t w' = name /\ default_name (other t) w' = default_name (other t) w.
Proof.
  intros (Ht & Hf & He & Hl & Hn & Hd1 & Hd2 & _).
  destruct t; cbn [set_default_name default_name other] in *;
    fsimpl_in Ht; fsimpl_in Hf; fsimpl_in He; fsimpl_in Hl; fsimpl_in Hn;
    fsimpl_in Hd1; fsimpl_in Hd2; repeat split; assumption.
Qed.

Lemma quiet_write_limit (t : pa_namereg_type) (name : option string)
    (w w' : world) :
  quiet (set_default_name t name w) w' -> write_limit w' = write_limit w.
Proof.
  intros (_ & _ & _ & _ & _ & _ & _ & H). rewrite H. destruct t; reflexivity.
Qed.

(** ** Bursts of change events *)

(** A burst that finds the time event [e] armed leaves it armed, with its
    deadline, and saves nothing. *)
Lemma burst_armed (b : burst) :
  forall (u : loc) (ud : userdata) (e : loc) (w : world),
  live u ud w -> time_event ud = Some e -> delays_ok b ->
  exists ud1 w1,
    exec (run (burst_actions b)) w = Some w1 /\
    live u ud1 w1 /\ time_event ud1 = Some e /\
    sink_filename ud1 = sink_filename ud /\
    source_filename ud1 = source_filename ud /\
    time_events w1 = time_events w /\ trace w1 = trace w /\
    files w1 = files w /\ write_error w1 = write_error w /\
    now w1 = now w + span b.
Proof.
  induction b as [|[[dt t] name] rest IH]; intros u ud e w Hl Hte Hok.
  - exists ud, w. cbn [burst_actions span]. rewrite exec_run_nil.
    split; [reflexivity|]. split; [exact Hl|]. split; [exact Hte|].
    repeat (split; [reflexivity|]). lia.
  - apply Forall_cons in Hok as (Hdt & Hok). cbn [fst] in Hdt.
    destruct (tick_live dt u ud w Hl Hdt) as (Et & Hlt).
    destruct (change_live t name u ud _ Hlt)
      as (ud' & wc & Ec & Hlc & _ & _ & Hsf & Hsof & Hq & Hsome & _).
    destruct (Hsome e Hte) as (Hte' & Htes).
    apply quiet_set_default in Hq as (Htr & Hf & He & _ & Hn & _).
    destruct (IH u ud' e wc Hlc Hte' Hok)
      as (ud1 & w1 & E1 & Hl1 & Hte1 & Hsf1 & Hsof1 & Htes1 & Htr1 & Hf1 & He1 & Hn1).
    exists ud1, w1. cbn [burst_actions span].
    rewrite (exec_run_cons _ _ _ _ Et), (exec_run_cons _ _ _ _ Ec).
    split; [exact E1|]. split; [exact Hl1|]. split; [exact Hte1|].
    split; [congruence|]. split; [congruence|].
    split; [rewrite Htes1, Htes; reflexivity|].
    split; [rewrite Htr1, Htr; reflexivity|].
    split; [rewrite Hf1, Hf; reflexivity|].
    split; [rewrite He1, He; reflexivity|].
    rewrite Hn1, Hn. cbn [now set_now]. lia.
Qed.

Lemma fire_due (e u : loc) (ud : userdata) (sf sof : string) (d : Z) (w : world) :
  live u ud w -> time_event ud = Some e ->
  time_events w = {[e := mkTimeEvent (Some d) u]} -> d <= now w ->
  sink_filename ud = Some sf -> source_filename ud = Some sof ->
  mainloop_fire e w =
    Some (tt, set_heap (<[u := set_time_event None (set_modified false ud)]> (heap w))
                (set_time_events ∅ (flushed sf sof w))).
Proof.
  intros Hl Hte Htes Hd Hsf Hsof. pose proof Hl as (_ & Hu & _ & _ & Ht).
  rewrite Hte in Ht. destruct Ht as (Hm & _).
  rewrite mainloop_fire_eq, Htes, lookup_singleton_eq.
  rewrite (proj2 (Z.leb_le d (now w)) Hd).
  rewrite (time_cb_dirty e e u ud sf sof (mkTimeEvent None u));
    try assumption; [|apply lookup_insert_eq].
  cbn [time_events set_time_events].
  rewrite insert_singleton_eq, delete_singleton_eq. reflexivity.
Qed.

Lemma fire_early (e u : loc) (d : Z) (w : world) :
  time_events w = {[e := mkTimeEvent (Some d) u]} -> now w < d ->
  mainloop_fire e w = None.
Proof.
  intros Htes Hd. rewrite mainloop_fire_eq, Htes, lookup_singleton_eq.
  rewrite (proj2 (Z.leb_gt d (now w)) Hd). reflexivity.
Qed.

(** ** The flag, from the history *)

Lemma exec_run_cons_inv (a : action) (rest : list action) (w w' : world) :
  exec (run (a :: rest)) w = Some w' ->
  exists w1, step a w = Some (tt, w1) /\ exec (run rest) w1 = Some w'.
Proof.
  unfold exec. cbn [run]. intros H.
  destruct (bind (step a) (fun _ => run rest) w) as [[[] w2]|] eqn:E;
    [|discriminate].
  injection H as <-. apply bind_inv in E as ([] & w1 & Hs & Hr).
  exists w1. split; [exact Hs|]. rewrite Hr. reflexivity.
Qed.

Lemma run_unloaded (acts : list action) (w w' : world) :
  unloaded w -> exec (run acts) w = Some w' -> unloaded w'.
Proof.
  revert w. induction acts as [|a rest IH]; intros w Hu H.
  - injection H as <-. exact Hu.
  - apply exec_run_cons_inv in H as (w1 & Hs & Hr).
    apply (IH w1); [eapply step_unloaded; eassumption | exact Hr].
Qed.

Lemma step_live_modified (a : action) (u : loc) (ud : userdata) (w w' : world) :
  live u ud w -> step a w = Some (tt, w') ->
  (a = Stop /\ unloaded w') \/
  exists ud', live u ud' w' /\ modified ud' = dirty_after (modified ud) a.
Proof.
  intros Hl H. destruct a as [t name|t idx|dt|e|].
  - right. destruct (change_live t name u ud w Hl) as (ud' & w2 & E & Hl' & Hm & _).
    rewrite E in H. injection H as <-. exists ud'. split; [exact Hl' | exact Hm].
  - right. cbn [step] in H. rewrite (post_live t idx u ud w Hl) in H.
    cbn [dirty_after]. destruct (facility_eqb (fst t) EVENT_SERVER).
    + destruct (subscribe_cb_live t idx u ud w Hl) as (ud' & w2 & E & Hl' & Hm & _).
      rewrite E in H. injection H as <-. exists ud'. split; [exact Hl' | exact Hm].
    + injection H as <-. exists ud. split; [exact Hl | reflexivity].
  - right. rewrite step_tick_eq in H. destruct (0 <=? dt); [|discriminate].
    injection H as <-. exists ud. split; [|reflexivity].
    eapply live_frame; [..|exact Hl]; reflexivity.
  - right. destruct (live_files u ud w Hl) as (sf & sof & Hsf & Hsof).
    destruct (fire_live e u ud sf sof w Hl Hsf Hsof w' H) as (_ & _ & ->).
    eexists. split; [apply live_fired; exact Hl | reflexivity].
  - left. split; [reflexivity|].
    destruct (live_files u ud w Hl) as (sf & sof & Hsf & Hsof).
    cbn [step] in H. rewrite (done_live u ud sf sof) in H by assumption.
    injection H as <-. apply unloaded_done. exact Hl.
Qed.

Lemma run_live_modified (acts : list action) :
  forall (u : loc) (ud ud' : userdata) (w w' : world),
  live u ud w -> exec (run acts) w = Some w' -> live u ud' w' ->
  modified ud' = fold_left dirty_after acts (modified ud).
Proof.
  induction acts as [|a rest IH]; intros u ud ud' w w' Hl H Hl'.
  - injection H as <-. destruct Hl as (_ & Hu & _), Hl' as (_ & Hu' & _).
    cbn [fold_left]. congruence.
  - apply exec_run_cons_inv in H as (w1 & Hs & Hr).
    destruct (step_live_modified a u ud w w1 Hl Hs) as [(_ & Hu)|(ud1 & Hl1 & Hm)].
    + destruct (live_not_unloaded u ud' w' Hl' (run_unloaded rest w1 w' Hu Hr)).
    + cbn [fold_left]. rewrite <- Hm. apply (IH u ud1 ud' w1 w'); assumption.
Qed.

Lemma run_same_module (acts : list action) :
  forall (u1 : loc) (ud1 : userdata) (wa wb : world),
  live u1 ud1 wa -> exec (run acts) wa = Some wb ->
  forall u2 ud2, live u2 ud2 wb -> u2 = u1.
Proof.
  induction acts as [|a rest IH]; intros u1 ud1 wa wb Hla H u2 ud2 Hlb.
  - injection H as <-. destruct Hla as (Ha & _), Hlb as (Hb & _). congruence.
  - apply exec_run_cons_inv in H as (wm & Hs & Hr).
    destruct (step_live_modified a u1 ud1 wa wm Hla Hs)
      as [(_ & Hu)|(udm & Hlm & _)].
    + destruct (live_not_unloaded u2 ud2 wb Hlb (run_unloaded rest wm wb Hu Hr)).
    + apply (IH u1 udm wm wb Hlm Hr u2 ud2 Hlb).
Qed.

(** ** The file names of a running module *)

Lemma state_paths_differ (d : string) :
  d ++ "/" ++ "default-sink" <> d ++ "/" ++ "default-source".
Proof.
  induction d as [|c d IH]; [discriminate|].
  intros H. apply IH. injection H as H. exact H.
Qed.

Lemma live_unique (u : loc) (ud ud' : userdata) (w : world) :
  live u ud w -> live u ud' w -> ud = ud'.
Proof. intros (_ & H & _) (_ & H' & _). congruence. Qed.

Lemma step_live_files (a : action) (u : loc) (ud ud' : userdata) (w w' : world) :
  live u ud w -> step a w = Some (tt, w') -> live u ud' w' ->
  sink_filename ud' = sink_filename ud /\ source_filename ud' = source_filename ud.
Proof.
  intros Hl H Hl'. destruct a as [t name|t idx|dt|e|].
  - destruct (change_live t name u ud w Hl)
      as (ud2 & w2 & E & Hl2 & _ & _ & Hsf & Hsof & _).
    rewrite E in H. injection H as <-.
    rewrite (live_unique u ud' ud2 w2 Hl' Hl2). split; assumption.
  - cbn [step] in H. rewrite (post_live t idx u ud w Hl) in H.
    destruct (facility_eqb (fst t) EVENT_SERVER).
    + destruct (subscribe_cb_live t idx u ud w Hl)
        as (ud2 & w2 & E & Hl2 & _ & _ & Hsf & Hsof & _).
      rewrite E in H. injection H as <-.
      rewrite (live_unique u ud' ud2 w2 Hl' Hl2). split; assumption.
    + injection H as <-. rewrite (live_unique u ud' ud w Hl' Hl). split; reflexivity.
  - rewrite step_tick_eq in H. destruct (0 <=? dt); [|discriminate].
    injection H as <-.
    assert (live u ud (set_now (now w + dt) w)) as Hl2
      by (eapply live_frame; [..|exact Hl]; reflexivity).
    rewrite (live_unique u ud' ud _ Hl' Hl2). split; reflexivity.
  - destruct (live_files u ud w Hl) as (sf & sof & Hsf & Hsof).
    destruct (fire_live e u ud sf sof w Hl Hsf Hsof w' H) as (_ & _ & ->).
    rewrite (live_unique u ud' _ _ Hl' (live_fired u ud sf sof w Hl)).
    split; reflexivity.
  - destruct (step_live_modified Stop u ud w w' Hl H)
      as [(_ & Hu)|(ud2 & _ & Habs)].
    + destruct (live_not_unloaded u ud' w' Hl' Hu).
    + destruct (live_files u ud w Hl) as (sf & sof & Hsf & Hsof).
      cbn [step] in H. rewrite (done_live u ud sf sof) in H by assumption.
      injection H as <-.
      destruct (live_not_unloaded u ud' _ Hl' (unloaded_done u ud sf sof w Hl)).
Qed.

Lemma run_live_files (acts : list action) :
  forall (u : loc) (ud ud' : userdata) (w w' : world),
  live u ud w -> exec (run acts) w = Some w' -> live u ud' w' ->
  sink_filename ud' = sink_filename ud /\ source_filename ud' = source_filename ud.
Proof.
  induction acts as [|a rest IH]; intros u ud ud' w w' Hl H Hl'.
  - injection H as <-. rewrite (live_unique u ud' ud w Hl' Hl). split; reflexivity.
  - apply exec_run_cons_inv in H as (w1 & Hs & Hr).
    destruct (step_live_modified a u ud w w1 Hl Hs) as [(_ & Hu)|(ud1 & Hl1 & _)].
    + destruct (live_not_unloaded u ud' w' Hl' (run_unloaded rest w1 w' Hu Hr)).
    + destruct (step_live_files a u ud ud1 w w1 Hl Hs Hl1) as (E1 & E2).
      destruct (IH u ud1 ud' w1 w' Hl1 Hr Hl') as (E3 & E4).
      split; congruence.
Qed.

(** The module of a reached state is the one [pa__init] set up, with the
    two file names [pa__init] gave it; the two are different. *)
Lemma reachable_live (w0 : world) (acts : list action) (w : world)
    (u : loc) (ud : userdata) :
  reachable w0 acts w -> live u ud w ->
  exists d ud0 w1,
    pa__init w0 = Some (0, w1) /\ exec (run acts) w1 = Some w /\
    live u ud0 w1 /\ modified ud0 = false /\ time_event ud0 = None /\
    sink_filename ud = Some (d ++ "/" ++ "default-sink") /\
    source_filename ud = Some (d ++ "/" ++ "default-source").
Proof.
  intros (Hb & w1 & Hi & Hr) Hl.
  destruct (init_live w0 w1 Hb Hi)
    as (d & ud0 & _ & Hl0 & Ht0 & Hm0 & Hsf0 & Hsof0 & _).
  pose proof (run_same_module acts _ _ _ _ Hl0 Hr u ud Hl) as ->.
  destruct (run_live_files acts _ ud0 ud w1 w Hl0 Hr Hl) as (E1 & E2).
  exists d, ud0, w1. split; [exact Hi|]. split; [exact Hr|]. split; [exact Hl0|].
  split; [exact Hm0|]. split; [exact Ht0|]. split; congruence.
Qed.

(** ** The claims *)

(** C1.  A burst of one or more change events that finds the module idle:
    the first event arms a time event for the save interval after it, and
    during the burst nothing is saved and no further time event comes
    about.  While its deadline has not come the time event cannot fire.
    When it fires, [save] runs once: each slot is opened for writing once,
    and what is written is the default name of the class at that moment. *)
Theorem C1_burst_is_saved_once (dt0 : Z) (t0 : pa_namereg_type)
    (name0 : option string) (rest : burst) (u : loc) (ud : userdata)
    (sf sof : string) (w : world) :
  live u ud w -> time_event ud = None ->
  sink_filename ud = Some sf -> source_filename ud = Some sof ->
  0 <= dt0 -> delays_ok rest ->
  let deadline := now w + dt0 + DEFAULT_SAVE_INTERVAL * PA_USEC_PER_SEC in
  exists e w1,
    exec (run (burst_actions ((dt0, t0, name0) :: rest))) w = Some w1 /\
    trace w1 = trace w /\ files w1 = files w /\
    time_events w1 = {[e := mkTimeEvent (Some deadline) u]} /\
    now w1 = now w + dt0 + span rest /\
    (now w1 < deadline -> step (Fire e) w1 = None) /\
    forall dt, 0 <= dt -> deadline <= now w1 + dt ->
      exists ud2 w2,
        exec (run [Tick dt; Fire e]) w1 = Some w2 /\
        trace w2 =
          (trace w ++ slot_io sf (default_sink_name w1) (write_error w !! sf)
             ++ slot_io sof (default_source_name w1) (write_error w !! sof))%list /\
        time_events w2 = ∅ /\
        live u ud2 w2 /\ modified ud2 = false /\ time_event ud2 = None.
Proof.
  intros Hl Hidle Hsf Hsof Hdt0 Hok deadline.
  destruct (tick_live dt0 u ud w Hl Hdt0) as (Et & Hlt).
  destruct (change_live t0 name0 u ud _ Hlt)
    as (ud' & wc & Ec & Hlc & _ & _ & Hsf' & Hsof' & Hq & _ & Hnone).
  destruct (Hnone Hidle) as (Hte' & Htes).
  apply quiet_set_default in Hq as (Htr & Hf & He & _ & Hn & _).
  destruct (burst_armed rest u ud' _ wc Hlc Hte' Hok)
    as (ud1 & w1 & E1 & Hl1 & Hte1 & Hsf1 & Hsof1 & Htes1 & Htr1 & Hf1 & He1 & Hn1).
  cbn [now set_now next_loc set_now] in Htes, Hn, Hte'.
  assert (time_events w1 = {[next_loc w := mkTimeEvent (Some deadline) u]})
    as Htes1' by (rewrite Htes1, Htes; reflexivity).
  assert (now w1 = now w + dt0 + span rest) as Hn1' by (rewrite Hn1, Hn; reflexivity).
  assert (trace w1 = trace w) as Htr1' by (rewrite Htr1, Htr; reflexivity).
  assert (write_error w1 = write_error w) as He1' by (rewrite He1, He; reflexivity).
  rewrite Hsf' in Hsf1. rewrite Hsof' in Hsof1.
  rewrite Hsf in Hsf1. rewrite Hsof in Hsof1.
  exists (next_loc w), w1. cbn [burst_actions].
  rewrite (exec_run_cons _ _ _ _ Et), (exec_run_cons _ _ _ _ Ec).
  split; [exact E1|]. split; [exact Htr1'|].
  split; [rewrite Hf1, Hf; reflexivity|]. split; [exact Htes1'|].
  split; [exact Hn1'|].
  split; [intros Hearly; cbn [step]; exact (fire_early _ u deadline w1 Htes1' Hearly)|].
  intros dt Hdt Hdue.
  destruct (tick_live dt u ud1 w1 Hl1 Hdt) as (Et2 & Hl2).
  set (w1t := set_now (now w1 + dt) w1) in *.
  assert (mainloop_fire (next_loc w) w1t =
            Some (tt, set_heap
                        (<[u := set_time_event None (set_modified false ud1)]>
                           (heap w1t))
                        (set_time_events ∅ (flushed sf sof w1t)))) as Ef
    by (apply (fire_due _ u ud1 sf sof deadline w1t); assumption).
  eexists _, _.
  split; [rewrite (exec_run_cons _ _ _ _ Et2);
          apply (exec_run_cons (Fire (next_loc w)) [] _ _ Ef)|].
  cbn [trace time_events set_heap set_time_events].
  split; [rewrite flushed_trace;
          change (trace w1t) with (trace w1);
          change (write_error w1t) with (write_error w1);
          rewrite Htr1', He1'; reflexivity|].
  split; [reflexivity|].
  split; [apply live_fired; exact Hl2|]. split; reflexivity.
Qed.

(** C2.  In a loaded module, an event of any category other than the server
    category, the one of the changes of the default sink and source, is not
    delivered to [subscribe_cb]: posting it leaves the whole world, flag
    and time event included, as it was.  A server event sets the flag and
    leaves a time event armed. *)
Theorem C2_only_server_events_reach_the_module
    (t : pa_subscription_event_type_t) (idx : Z) (u : loc) (ud : userdata)
    (w : world) :
  live u ud w ->
  (fst t <> EVENT_SERVER -> step (Post t idx) w = Some (tt, w)) /\
  (fst t = EVENT_SERVER ->
   exists ud' w',
     step (Post t idx) w = Some (tt, w') /\ live u ud' w' /\
     modified ud' = true /\ time_event ud' <> None).
Proof.
  intros Hl. cbn [step]. rewrite (post_live t idx u ud w Hl). split.
  - intros Hne. destruct (facility_eqb (fst t) EVENT_SERVER) eqn:E; [|reflexivity].
    apply facility_eqb_eq in E. contradiction.
  - intros He. rewrite (proj2 (facility_eqb_eq _ _) He).
    destruct (subscribe_cb_live t idx u ud w Hl)
      as (ud' & w' & E & Hl' & Hm & Ht & _).
    exists ud', w'. split; [exact E|]. split; [exact Hl'|].
    split; [exact Hm | exact Ht].
Qed.

(** C3.  In every state reached from a successful start by change events,
    other events, the passing of time, firings of the time event and the
    shutdown, the main loop holds at most one time event.  A change event
    that finds a time event leaves the time events as they are; one that
    finds none in a loaded module arms exactly one; a firing and the
    shutdown leave none. *)
Theorem C3_at_most_one_time_event (w0 : world) (acts : list action) (w : world) :
  reachable w0 acts w ->
  (size (time_events w) <= 1)%nat /\
  (forall t name w', step (Change t name) w = Some (tt, w') ->
     (size (time_events w') <= 1)%nat /\
     (time_events w <> ∅ -> time_events w' = time_events w) /\
     (time_events w = ∅ -> loaded w -> size (time_events w') = 1%nat)) /\
  (forall e w', step (Fire e) w = Some (tt, w') -> time_events w' = ∅) /\
  (forall w', step Stop w = Some (tt, w') -> time_events w' = ∅).
Proof.
  intros Hr. pose proof (reachable_inv w0 acts w Hr) as Hi.
  split; [apply module_inv_timer_size, Hi|]. split; [|split].
  - intros t name w' Hs.
    split; [eapply module_inv_timer_size, step_inv; eassumption|].
    destruct Hi as [(u & ud & Hl)|Hu].
    + destruct (change_live t name u ud w Hl)
        as (ud' & w2 & E & _ & _ & _ & _ & _ & _ & Hsome & Hnone).
      rewrite E in Hs. injection Hs as <-.
      pose proof Hl as (_ & _ & _ & _ & Ht).
      destruct (time_event ud) as [e|].
      * split; [intros _; apply (Hsome e eq_refl)|].
        intros He. destruct Ht as (_ & d & Ht). rewrite Ht in He.
        apply (f_equal size) in He.
        rewrite map_size_singleton, map_size_empty in He. discriminate.
      * split; [intros Hne; contradiction|]. intros _ _.
        rewrite (proj2 (Hnone eq_refl)). apply map_size_singleton.
    + pose proof Hu as (Hsub & Ht & _).
      rewrite step_change_eq, post_unloaded in Hs by (destruct t; exact Hsub).
      injection Hs as <-.
      split; [intros _; destruct t; reflexivity|].
      intros _ (u & ud & Hl). destruct (live_not_unloaded u ud w Hl Hu).
  - intros e w' Hs. destruct Hi as [(u & ud & Hl)|Hu].
    + destruct (live_files u ud w Hl) as (sf & sof & Hsf & Hsof).
      destruct (fire_live e u ud sf sof w Hl Hsf Hsof w' Hs) as (_ & _ & ->).
      reflexivity.
    + apply (step_unloaded _ _ _ Hu) in Hs. apply Hs.
  - intros w' Hs. destruct Hi as [(u & ud & Hl)|Hu].
    + destruct (live_files u ud w Hl) as (sf & sof & Hsf & Hsof).
      cbn [step] in Hs. rewrite (done_live u ud sf sof w Hl Hsf Hsof) in Hs.
      injection Hs as <-. reflexivity.
    + apply (step_unloaded _ _ _ Hu) in Hs. apply Hs.
Qed.

(** C4, as the code has it.  In every state of a loaded module reached from
    a successful start, the flag is set exactly when a change event has
    been seen since the last flush.  A firing of the time event leaves the
    flag cleared, whether the slots could be written or not. *)
Theorem C4_flag_follows_flush_attempts (w0 : world) (acts : list action)
    (w : world) (u : loc) (ud : userdata) :
  reachable w0 acts w -> live u ud w ->
  modified ud = fold_left dirty_after acts false /\
  forall e w', step (Fire e) w = Some (tt, w') ->
    exists ud', live u ud' w' /\ modified ud' = false.
Proof.
  intros Hr Hl.
  destruct (reachable_live w0 acts w u ud Hr Hl)
    as (d & ud0 & w1 & _ & Hrun & Hl0 & Hm0 & _ & Hsf & Hsof).
  split.
  - rewrite <- Hm0. apply (run_live_modified acts u ud0 ud w1 w Hl0 Hrun Hl).
  - intros e w' Hf.
    destruct (fire_live e u ud _ _ w Hl Hsf Hsof w' Hf) as (_ & _ & ->).
    eexists. split; [apply live_fired; exact Hl | reflexivity].
Qed.

(** C5.  When a default is configured for a class, the half of [load] for
    that class does nothing but log that fact, whatever the slot file
    holds; and after the whole of [load] the configured default of that
    class is still in place, and every file [load] has opened is the slot
    of the other class. *)
Theorem C5_configured_default_is_kept (t : pa_namereg_type) (u : loc)
    (ud : userdata) (path path' : string) (n : string) (w : world) :
  heap w !! u = Some ud ->
  slot t ud = Some path -> slot (other t) ud = Some path' ->
  default_name t w = Some n ->
  (exists msg,
     load_class t u w = Some (tt, set_log (log w ++ [(PA_LOG_INFO, msg)]) w)) /\
  exists w',
    load u w = Some (tt, w') /\ default_name t w' = Some n /\
    exists delta : list io_event,
      trace w' = (trace w ++ delta)%list /\
      forall ev, ev ∈ delta -> exists r, ev = Fopen path' ModeR r.
Proof.
  intros Hu Hp Hp' Hc.
  split; [exact (load_class_configured t u ud n w Hu Hc)|].
  destruct t; cbn [other] in Hp'.
  - destruct (load_class_configured PA_NAMEREG_SINK u ud n w Hu Hc) as (msg & E1).
    destruct (load_class_shape PA_NAMEREG_SOURCE u ud path'
                (set_log (log w ++ [(PA_LOG_INFO, msg)]) w) Hu Hp')
      as (w' & E2 & _ & Hd & _ & delta & Ht & _ & Hev).
    exists w'. split.
    { unfold load, bind. cbn [load_class] in E1, E2. rewrite E1, E2. reflexivity. }
    split; [cbn [other] in Hd; rewrite Hd; exact Hc|].
    exists delta. split; [exact Ht | exact Hev].
  - destruct (load_class_shape PA_NAMEREG_SINK u ud path' w Hu Hp')
      as (wa & E1 & Hh & Hd & _ & delta & Ht & _ & Hev).
    assert (heap wa !! u = Some ud) as Hu' by (rewrite Hh; exact Hu).
    assert (default_name PA_NAMEREG_SOURCE wa = Some n) as Hc'
      by (cbn [other] in Hd; rewrite Hd; exact Hc).
    destruct (load_class_configured PA_NAMEREG_SOURCE u ud n wa Hu' Hc')
      as (msg & E2).
    eexists. split.
    { unfold load, bind. cbn [load_class] in E1, E2. rewrite E1, E2. reflexivity. }
    split; [exact Hc'|].
    exists delta. split; [exact Ht | exact Hev].
Qed.

(** C6, as the code has it.  A change event, then any time during which
    the time event does not fire, then the shutdown: [pa__done] flushes.
    It opens both slots for writing and writes to each it could open the
    default name of the class as it is after the event, followed by a
    newline; a slot that could be opened and written in full then holds
    just that. *)
Theorem C6_shutdown_flushes (t : pa_namereg_type) (name : option string)
    (dt : Z) (u : loc) (ud : userdata) (sf sof : string) (w : world) :
  live u ud w ->
  sink_filename ud = Some sf -> source_filename ud = Some sof -> sf <> sof ->
  0 <= dt ->
  exists w1 w2,
    exec (run [Change t name; Tick dt]) w = Some w1 /\
    step Stop w1 = Some (tt, w2) /\
    default_name t w1 = name /\
    default_name (other t) w1 = default_name (other t) w /\
    trace w1 = trace w /\
    trace w2 =
      (trace w ++ slot_io sf (default_sink_name w1) (write_error w !! sf)
         ++ slot_io sof (default_source_name w1) (write_error w !! sof))%list /\
    (write_error w !! sf = None -> write_limit w !! sf = None ->
     files w2 !! sf = Some (pa_strempty (default_sink_name w1) ++ nl)) /\
    (write_error w !! sof = None -> write_limit w !! sof = None ->
     files w2 !! sof = Some (pa_strempty (default_source_name w1) ++ nl)) /\
    subscriptions w2 = ∅ /\ time_events w2 = ∅.
Proof.
  intros Hl Hsf Hsof Hne Hdt.
  destruct (change_live t name u ud w Hl)
    as (ud' & wc & Ec & Hlc & Hm & _ & Hsf' & Hsof' & Hq & _).
  pose proof (quiet_write_limit t name w wc Hq) as Hwl.
  apply quiet_set_default in Hq as (Ht & Hf & He & _ & _ & Hd & Hd').
  destruct (tick_live dt u ud' wc Hlc Hdt) as (Et & Hl1).
  rewrite Hsf in Hsf'. rewrite Hsof in Hsof'.
  pose proof (done_live u ud' sf sof _ Hl1 Hsf' Hsof') as Ed. rewrite Hm in Ed.
  set (w1 := set_now (now wc + dt) wc) in *.
  assert (trace w1 = trace w) as Ht1 by exact Ht.
  assert (write_error w1 = write_error w) as He1 by exact He.
  assert (write_limit w1 = write_limit w) as Hwl1 by exact Hwl.
  exists w1. eexists.
  split; [rewrite (exec_run_cons _ _ _ _ Ec), (exec_run_cons _ _ _ _ Et);
          reflexivity|].
  split; [exact Ed|].
  split; [destruct t; exact Hd|]. split; [destruct t; exact Hd'|].
  split; [exact Ht1|].
  cbn [trace files subscriptions time_events set_heap set_time_events
       set_subscriptions].
  split; [rewrite flushed_trace, Ht1, He1; reflexivity|].
  split.
  { intros Hw Hlim. rewrite flushed_sink_file; [|exact Hne|rewrite He1; exact Hw].
    rewrite Hwl1, Hlim. reflexivity. }
  split; [|split; reflexivity].
  intros Hw Hlim. rewrite flushed_source_file by (rewrite He1; exact Hw).
  rewrite Hwl1, Hlim. reflexivity.
Qed.

(** C7.  [save] is a no-op when the flag is not set: it returns the world
    it was given, so no file is opened or written and no state changes.
    Consequently, of two flushes in a row the second changes nothing: it
    finds the flag the first one cleared. *)
Theorem C7_save_noop_when_clean (u : loc) (ud : userdata) (w : world) :
  heap w !! u = Some ud ->
  (modified ud = false -> save u w = Some (tt, w)) /\
  (exists w1, save u w = Some (tt, w1) /\ save u w1 = Some (tt, w1) /\
              exec (save u ;; save u) w = Some w1).
Proof.
  intros Hu. split; [intros Hm; apply (save_clean u ud); assumption|].
  destruct (save_total u ud w Hu) as (w1 & Hs & Hu1).
  assert (save u w1 = Some (tt, w1)) as Hs1
    by (apply (save_clean u (set_modified false ud)); [exact Hu1 | reflexivity]).
  exists w1. split; [exact Hs|]. split; [exact Hs1|].
  unfold exec, bind. rewrite Hs, Hs1. reflexivity.
Qed.

(** C8.  When opening the slot of a class fails because the file does not
    exist, the half of [load] for that class returns having logged nothing
    and set no default: the world is as before, but for the record of the
    failed [fopen].  Any other failure of the open is logged as an error,
    and a slot that could be opened is never reported as one. *)
Theorem C8_missing_slot_is_not_an_error (t : pa_namereg_type) (u : loc)
    (ud : userdata) (path : string) (w : world) :
  heap w !! u = Some ud -> slot t ud = Some path -> default_name t w = None ->
  (open_outcome path w = Some ENOENT ->
   load_class t u w =
     Some (tt, set_trace (trace w ++ [Fopen path ModeR (Some ENOENT)]) w)) /\
  (forall e, open_outcome path w = Some e -> e <> ENOENT ->
   load_class t u w =
     Some (tt, set_log (log w ++ [(PA_LOG_ERROR,
                                   "Failed to load default sink: " ++ pa_cstrerror e)])
                 (set_trace (trace w ++ [Fopen path ModeR (Some e)]) w))) /\
  (open_outcome path w = None ->
   exists msg w',
     load_class t u w = Some (tt, w') /\
     log w' = (log w ++ [(PA_LOG_INFO, msg)])%list).
Proof.
  intros Hu Hp Hc. split; [|split].
  - intros Ho. apply (load_class_absent t u ud); assumption.
  - intros e Ho He. apply (load_class_open_error t u ud); assumption.
  - intros Ho. unfold open_outcome in Ho.
    destruct (read_error w !! path) eqn:Hr; [discriminate|].
    destruct (files w !! path) as [content|] eqn:Hf; [|discriminate].
    destruct (load_class_opened t u ud path content w Hu Hp Hc Hr Hf)
      as (msg & E).
    eexists msg, _. split; [exact E|]. destruct t; reflexivity.
Qed.

(** C9, as the code has it.  [pa__done] does nothing when the module has
    no structure.  On a loaded module it returns, having removed the
    subscription and the time event and freed the structure; the module is
    left with the pointer to the freed structure, so that a second
    [pa__done] is not a no-op: it reads freed memory. *)
Theorem C9_teardown_runs_once (w : world) :
  (m_userdata w = None -> pa__done w = Some (tt, w)) /\
  (loaded w ->
   exists w',
     pa__done w = Some (tt, w') /\ subscriptions w' = ∅ /\
     time_events w' = ∅ /\ heap w' = delete (default 0%nat (m_userdata w)) (heap w) /\
     m_userdata w' = m_userdata w /\ pa__done w' = None).
Proof.
  split.
  - intros Hm. unfold pa__done. wsimpl. rewrite Hm. reflexivity.
  - intros (u & ud & Hl).
    destruct (live_files u ud w Hl) as (sf & sof & Hsf & Hsof).
    pose proof (unloaded_done u ud sf sof w Hl) as Hu.
    pose proof Hl as (Hm & _).
    eexists. split; [exact (done_live u ud sf sof w Hl Hsf Hsof)|].
    split; [reflexivity|]. split; [reflexivity|].
    split; [rewrite Hm; reflexivity|].
    split; [destruct (modified ud); reflexivity|].
    apply done_unloaded, Hu.
Qed.

(** C10.  The name [load] restores from a slot it could open is what
    [fgets] with room for [sizeof(ln) - 1] bytes and [pa_strip_nl] leave of
    the file: an initial segment of the content of at most 255 characters.
    Of the line [save] wrote for a name it is the name cut to its first 254
    characters, so a name of more than 255 characters does not come back. *)
Theorem C10_restored_name_is_cut (t : pa_namereg_type) (u : loc)
    (ud : userdata) (path content : string) (w : world) :
  heap w !! u = Some ud -> slot t ud = Some path -> default_name t w = None ->
  read_error w !! path = None -> files w !! path = Some content ->
  (exists w',
     load_class t u w = Some (tt, w') /\
     (default_name t w' = None \/ default_name t w' = Some (read_name content))) /\
  (String.length (read_name content) <= 255)%nat /\
  is_prefix (read_name content) content /\
  forall name, plain name = true -> content = name ++ nl ->
    read_name content = str_take 254 name /\
    ((255 < String.length name)%nat -> read_name content <> name).
Proof.
  intros Hu Hp Hc Hr Hf. split; [|split; [|split]].
  - destruct (load_class_opened t u ud path content w Hu Hp Hc Hr Hf)
      as (msg & E).
    eexists. split; [exact E|].
    destruct (negb (is_empty (read_name content))
              && registered t (read_name content) w);
      [right | left]; destruct t; reflexivity.
  - pose proof (read_name_length content). unfold sizeof_ln in *. lia.
  - apply read_name_prefix.
  - intros name Hplain ->. split; [apply (read_back name Hplain)|].
    intros Hlen Heq. pose proof (read_name_length (name ++ nl)) as Hb.
    rewrite Heq in Hb. unfold sizeof_ln in Hb. lia.
Qed.

(** ** The claims on sample worlds *)

Ltac live_by_computation :=
  unfold live;
  split; [vm_compute; reflexivity|];
  split; [vm_compute; reflexivity|];
  split; [eexists; split; vm_compute; reflexivity|];
  split; [eexists _, _; split; reflexivity|];
  vm_compute; first [reflexivity | split; [reflexivity | eexists; reflexivity]].

Ltac reachable_by_computation :=
  split; [repeat split|];
  eexists; split; vm_compute; reflexivity.

(** The example of the specification: the default sink becomes "A" at 0s
    and "B" at 2s; the save at 5s writes "B", once. *)
Example debounce_example :
  option_map (fun w => drop (length (trace world_loaded)) (trace w))
    (exec (run [Change PA_NAMEREG_SINK (Some "A"); Tick 2000000;
                Change PA_NAMEREG_SINK (Some "B"); Tick 3000000; Fire 3%nat])
       world_loaded)
  = Some [Fopen sink_path ModeW None; Fprintf sink_path ("B" ++ nl);
          Fopen source_path ModeW None; Fprintf source_path nl].
Proof. vm_compute. reflexivity. Qed.

Lemma C1_witness :
  live 1%nat ud_loaded world_loaded /\ time_event ud_loaded = None /\
  exists e w1,
    exec (run (burst_actions [(0, PA_NAMEREG_SINK, Some "A");
                              (2000000, PA_NAMEREG_SINK, Some "B")]))
      world_loaded = Some w1 /\
    trace w1 = trace world_loaded /\
    time_events w1 = {[e := mkTimeEvent (Some 5000000) 1%nat]}.
Proof.
  assert (live 1%nat ud_loaded world_loaded) as Hl by live_by_computation.
  split; [exact Hl|]. split; [reflexivity|].
  destruct (C1_burst_is_saved_once 0 PA_NAMEREG_SINK (Some "A")
              [(2000000, PA_NAMEREG_SINK, Some "B")] 1%nat ud_loaded
              sink_path source_path world_loaded Hl eq_refl eq_refl eq_refl)
    as (e & w1 & E & Ht & _ & Hte & _);
    [lia | repeat constructor; cbn; lia |].
  exists e, w1. split; [exact E|]. split; [exact Ht | exact Hte].
Defined.

Lemma C2_witness :
  live 1%nat ud_loaded world_loaded /\
  step (Post (EVENT_SINK, EVENT_NEW) 0) world_loaded = Some (tt, world_loaded).
Proof.
  assert (live 1%nat ud_loaded world_loaded) as Hl by live_by_computation.
  split; [exact Hl|].
  apply (C2_only_server_events_reach_the_module (EVENT_SINK, EVENT_NEW) 0
           1%nat ud_loaded world_loaded Hl).
  discriminate.
Defined.

Lemma C3_witness :
  reachable world0 [Change PA_NAMEREG_SINK (Some "A")]
    (after world0 [Change PA_NAMEREG_SINK (Some "A")]) /\
  (size (time_events (after world0 [Change PA_NAMEREG_SINK (Some "A")])) <= 1)%nat.
Proof.
  assert (reachable world0 [Change PA_NAMEREG_SINK (Some "A")]
            (after world0 [Change PA_NAMEREG_SINK (Some "A")])) as Hr
    by reachable_by_computation.
  split; [exact Hr|].
  apply (C3_at_most_one_time_event _ _ _ Hr).
Defined.

Lemma C4_witness :
  reachable world0 [Change PA_NAMEREG_SINK (Some "A")]
    (after world0 [Change PA_NAMEREG_SINK (Some "A")]) /\
  live 1%nat ud_armed (after world0 [Change PA_NAMEREG_SINK (Some "A")]) /\
  modified ud_armed =
    fold_left dirty_after [Change PA_NAMEREG_SINK (Some "A")] false.
Proof.
  assert (reachable world0 [Change PA_NAMEREG_SINK (Some "A")]
            (after world0 [Change PA_NAMEREG_SINK (Some "A")])) as Hr
    by reachable_by_computation.
  assert (live 1%nat ud_armed (after world0 [Change PA_NAMEREG_SINK (Some "A")]))
    as Hl by live_by_computation.
  split; [exact Hr|]. split; [exact Hl|].
  apply (C4_flag_follows_flush_attempts _ _ _ 1%nat ud_armed Hr Hl).
Defined.

(** C4, as the claim has it, fails: the slots cannot be written, a change
    of the default sink is seen and the time event fires; the flag is
    cleared although the sink slot does not hold the new name. *)
Lemma C4_counterexample :
  reachable world_readonly failed_save (after world_readonly failed_save) /\
  option_map modified (the_userdata (after world_readonly failed_save))
    = Some false /\
  default_sink_name (after world_readonly failed_save) = Some "alsa_output" /\
  files (after world_readonly failed_save) !! sink_path = None.
Proof.
  split; [reachable_by_computation|].
  repeat split; vm_compute; reflexivity.
Qed.

Lemma C5_witness :
  heap world_configured !! 1%nat = Some ud_init /\
  default_name PA_NAMEREG_SINK world_configured = Some "null" /\
  exists w',
    load 1%nat world_configured = Some (tt, w') /\
    default_name PA_NAMEREG_SINK w' = Some "null".
Proof.
  assert (heap world_configured !! 1%nat = Some ud_init) as Hu
    by (vm_compute; reflexivity).
  split; [exact Hu|]. split; [reflexivity|].
  destruct (C5_configured_default_is_kept PA_NAMEREG_SINK 1%nat ud_init
              sink_path source_path "null" world_configured Hu eq_refl eq_refl
              eq_refl) as (_ & w' & E & Hd & _).
  exists w'. split; [exact E | exact Hd].
Defined.

Lemma C6_witness :
  live 1%nat ud_loaded world_loaded /\ sink_path <> source_path /\
  exists w1 w2,
    exec (run [Change PA_NAMEREG_SINK (Some "A"); Tick 1000000]) world_loaded
      = Some w1 /\
    step Stop w1 = Some (tt, w2) /\
    files w2 !! sink_path = Some ("A" ++ nl).
Proof.
  assert (live 1%nat ud_loaded world_loaded) as Hl by live_by_computation.
  assert (sink_path <> source_path) as Hne by discriminate.
  split; [exact Hl|]. split; [exact Hne|].
  destruct (C6_shutdown_flushes PA_NAMEREG_SINK (Some "A") 1000000 1%nat
              ud_loaded sink_path source_path world_loaded Hl eq_refl eq_refl Hne)
    as (w1 & w2 & E1 & E2 & Hd & _ & _ & _ & Hf & _); [lia|].
  exists w1, w2. split; [exact E1|]. split; [exact E2|].
  cbn [default_name] in Hd. rewrite Hd in Hf.
  apply Hf; vm_compute; reflexivity.
Defined.

(** C6, as the claim has it, fails: the disk is full, a change of the
    default sink is seen and the module is unloaded before the time event
    fires.  [pa__done] flushes, both slots open, the writes do not go
    through, and the sink slot is left empty instead of holding the new
    name; nothing is logged. *)
Lemma C6_counterexample :
  reachable world_full unsaved_shutdown (after world_full unsaved_shutdown) /\
  default_sink_name (after world_full unsaved_shutdown) = Some "alsa_output" /\
  files (after world_full unsaved_shutdown) !! sink_path = Some EmptyString /\
  files (after world_full unsaved_shutdown) !! sink_path
    <> Some ("alsa_output" ++ nl) /\
  log (after world_full unsaved_shutdown) = [].
Proof.
  split; [reachable_by_computation|].
  assert (files (after world_full unsaved_shutdown) !! sink_path
          = Some EmptyString) as E by (vm_compute; reflexivity).
  split; [vm_compute; reflexivity|]. split; [exact E|].
  split; [rewrite E; discriminate | vm_compute; reflexivity].
Qed.

Lemma C7_witness :
  heap world_loaded !! 1%nat = Some ud_loaded /\
  save 1%nat world_loaded = Some (tt, world_loaded).
Proof.
  assert (heap world_loaded !! 1%nat = Some ud_loaded) as Hu
    by (vm_compute; reflexivity).
  split; [exact Hu|].
  apply (C7_save_noop_when_clean 1%nat ud_loaded world_loaded Hu).
  reflexivity.
Defined.

Lemma C8_witness :
  heap world_fresh !! 1%nat = Some ud_init /\
  open_outcome sink_path world_fresh = Some ENOENT /\
  load_class PA_NAMEREG_SINK 1%nat world_fresh =
    Some (tt, set_trace [Fopen sink_path ModeR (Some ENOENT)] world_fresh).
Proof.
  assert (heap world_fresh !! 1%nat = Some ud_init) as Hu
    by (vm_compute; reflexivity).
  assert (open_outcome sink_path world_fresh = Some ENOENT) as Ho
    by (vm_compute; reflexivity).
  split; [exact Hu|]. split; [exact Ho|].
  apply (C8_missing_slot_is_not_an_error PA_NAMEREG_SINK 1%nat ud_init
           sink_path world_fresh Hu eq_refl eq_refl).
  exact Ho.
Defined.

Lemma C9_witness :
  loaded world_loaded /\
  exists w', pa__done world_loaded = Some (tt, w') /\ pa__done w' = None.
Proof.
  assert (loaded world_loaded) as Hl
    by (exists 1%nat, ud_loaded; live_by_computation).
  split; [exact Hl|].
  destruct (proj2 (C9_teardown_runs_once world_loaded) Hl)
    as (w' & E & _ & _ & _ & _ & E').
  exists w'. split; [exact E | exact E'].
Defined.

(** C9, as the claim has it, fails: after a start and a shutdown, a second
    [pa__done] is not a no-op.  It finds the pointer to the structure the
    first one freed and reads the flag through it. *)
Lemma C9_counterexample :
  reachable world0 [Stop] (after world0 [Stop]) /\
  m_userdata (after world0 [Stop]) = Some 1%nat /\
  heap (after world0 [Stop]) !! 1%nat = None /\
  pa__done (after world0 [Stop]) = None /\
  pa__done (after world0 [Stop]) <> Some (tt, after world0 [Stop]).
Proof.
  split; [reachable_by_computation|].
  assert (pa__done (after world0 [Stop]) = None) as E by (vm_compute; reflexivity).
  split; [vm_compute; reflexivity|]. split; [vm_compute; reflexivity|].
  split; [exact E|]. rewrite E. discriminate.
Qed.

Lemma C10_witness :
  heap world_long !! 1%nat = Some ud_init /\
  files world_long !! sink_path = Some (long_name ++ nl) /\
  (String.length (read_name (long_name ++ nl)) <= 255)%nat /\
  read_name (long_name ++ nl) <> long_name.
Proof.
  assert (heap world_long !! 1%nat = Some ud_init) as Hu
    by (vm_compute; reflexivity).
  assert (files world_long !! sink_path = Some (long_name ++ nl)) as Hf
    by (vm_compute; reflexivity).
  split; [exact Hu|]. split; [exact Hf|].
  destruct (C10_restored_name_is_cut PA_NAMEREG_SINK 1%nat ud_init sink_path
              (long_name ++ nl) world_long Hu eq_refl eq_refl eq_refl Hf)
    as (_ & Hlen & _ & Hcut).
  split; [exact Hlen|].
  apply (Hcut long_name); [reflexivity | reflexivity |].
  vm_compute. lia.
Defined.

(** ** Further properties of the module *)

(** *** Saving and restoring *)

Lemma str_take_all (n : nat) (s : string) :
  (String.length s <= n)%nat -> str_take n s = s.
Proof.
  revert s. induction n as [|n IH]; intros [|c s] H; cbn in *;
    try reflexivity; try lia.
  f_equal. apply IH. lia.
Qed.

Lemma default_name_set (t : pa_namereg_type) (v : option string) (w : world) :
  default_name t (set_default_name t v w) = v.
Proof. destruct t; reflexivity. Qed.

Lemma save_dirty_slot (t : pa_namereg_type) (u : loc) (ud : userdata)
    (sf sof path : string) (w : world) :
  heap w !! u = Some ud -> modified ud = true ->
  sink_filename ud = Some sf -> source_filename ud = Some sof -> sf <> sof ->
  slot t ud = Some path ->
  write_error w !! path = None -> write_limit w !! path = None ->
  exists w1,
    save u w = Some (tt, w1) /\
    files w1 !! path = Some (pa_strempty (default_name t w) ++ nl).
Proof.
  intros Hu Hm Hsf Hsof Hne Hp Hw Hlim.
  eexists. split; [exact (save_dirty u ud sf sof w Hu Hm Hsf Hsof)|].
  cbn [files set_heap].
  destruct t; cbn [slot default_name] in *.
  - assert (path = sf) as -> by congruence.
    rewrite flushed_sink_file by assumption. rewrite Hlim. reflexivity.
  - assert (path = sof) as -> by congruence.
    rewrite flushed_source_file by assumption. rewrite Hlim. reflexivity.
Qed.

(** X1.  What [save] writes, [load] reads back.  With the flag set, when
    the slot of a class can be opened and the write goes through in full,
    [save] leaves the default name of the class and a newline in the slot;
    in a later run without a configured default [load] makes that name the
    default again, provided it is a one-line C string of 1 to 254
    characters that the core still knows. *)
Theorem X1_saved_name_is_restored (t : pa_namereg_type) (name : string)
    (u : loc) (ud : userdata) (sf sof path : string) (w : world) :
  heap w !! u = Some ud -> modified ud = true ->
  sink_filename ud = Some sf -> source_filename ud = Some sof -> sf <> sof ->
  slot t ud = Some path ->
  write_error w !! path = None -> write_limit w !! path = None ->
  default_name t w = Some name ->
  plain name = true -> name <> EmptyString -> (String.length name <= 254)%nat ->
  exists w1,
    save u w = Some (tt, w1) /\ files w1 !! path = Some (name ++ nl) /\
    forall (u2 : loc) (ud2 : userdata) (w2 : world),
      heap w2 !! u2 = Some ud2 -> slot t ud2 = Some path ->
      files w2 !! path = files w1 !! path -> read_error w2 !! path = None ->
      default_name t w2 = None -> registered t name w2 = true ->
      exists w3,
        load_class t u2 w2 = Some (tt, w3) /\ default_name t w3 = Some name.
Proof.
  intros Hu Hm Hsf Hsof Hne Hp Hw Hlim Hd Hplain Hnz Hlen.
  destruct (save_dirty_slot t u ud sf sof path w Hu Hm Hsf Hsof Hne Hp Hw Hlim)
    as (w1 & Es & Hf).
  rewrite Hd in Hf. cbn [pa_strempty] in Hf.
  exists w1. split; [exact Es|]. split; [exact Hf|].
  intros u2 ud2 w2 Hu2 Hp2 Hf2 Hr2 Hd2 Hreg.
  rewrite Hf in Hf2.
  destruct (load_class_opened t u2 ud2 path (name ++ nl) w2 Hu2 Hp2 Hd2 Hr2 Hf2)
    as (msg & E).
  eexists. split; [exact E|].
  rewrite (read_back name Hplain), (str_take_all (sizeof_ln - 2) name Hlen), Hreg.
  destruct name as [|c name]; [contradiction|].
  cbn [is_empty negb andb set_log].
  destruct t; reflexivity.
Qed.

Lemma X1_witness :
  heap world_dirty !! 1%nat = Some ud_dirty /\
  exists w1,
    save 1%nat world_dirty = Some (tt, w1) /\
    files w1 !! sink_path = Some ("alsa_output" ++ nl) /\
    exists w3,
      load_class PA_NAMEREG_SINK 1%nat (world_restart ("alsa_output" ++ nl))
        = Some (tt, w3) /\
      default_sink_name w3 = Some "alsa_output".
Proof.
  assert (heap world_dirty !! 1%nat = Some ud_dirty) as Hu
    by (vm_compute; reflexivity).
  split; [exact Hu|].
  destruct (X1_saved_name_is_restored PA_NAMEREG_SINK "alsa_output" 1%nat
              ud_dirty sink_path source_path sink_path world_dirty Hu eq_refl
              eq_refl eq_refl)
    as (w1 & Es & Hf & Hload);
    [discriminate | reflexivity | vm_compute; reflexivity
    | vm_compute; reflexivity | reflexivity
    | reflexivity | discriminate | vm_compute; lia |].
  exists w1. split; [exact Es|]. split; [exact Hf|].
  apply (Hload 1%nat ud_init (world_restart ("alsa_output" ++ nl)));
    try reflexivity; try (vm_compute; reflexivity).
  rewrite Hf. vm_compute. reflexivity.
Defined.

(** X2.  A saved name the core does not know any more is not restored:
    [load] leaves the class without default, reports it as an information
    and not as an error, and leaves the slot file as it is. *)
Theorem X2_stale_name_is_not_restored (t : pa_namereg_type) (u : loc)
    (ud : userdata) (path content : string) (w : world) :
  heap w !! u = Some ud -> slot t ud = Some path -> default_name t w = None ->
  read_error w !! path = None -> files w !! path = Some content ->
  registered t (read_name content) w = false ->
  exists msg w',
    load_class t u w = Some (tt, w') /\ default_name t w' = None /\
    files w' = files w /\ log w' = (log w ++ [(PA_LOG_INFO, msg)])%list /\
    trace w' = (trace w ++ [Fopen path ModeR None])%list.
Proof.
  intros Hu Hp Hd Hr Hf Hreg.
  destruct (load_class_opened t u ud path content w Hu Hp Hd Hr Hf) as (msg & E).
  rewrite Hreg, andb_false_r in E.
  eexists msg, _. split; [exact E|].
  split; [cbn [set_log]; destruct t; reflexivity|].
  repeat split; destruct t; reflexivity.
Qed.

Lemma X2_witness :
  heap (world_restart ("usb_headset" ++ nl)) !! 1%nat = Some ud_init /\
  registered PA_NAMEREG_SINK (read_name ("usb_headset" ++ nl))
    (world_restart ("usb_headset" ++ nl)) = false /\
  exists w',
    load_class PA_NAMEREG_SINK 1%nat (world_restart ("usb_headset" ++ nl))
      = Some (tt, w') /\
    default_sink_name w' = None.
Proof.
  assert (heap (world_restart ("usb_headset" ++ nl)) !! 1%nat = Some ud_init)
    as Hu by (vm_compute; reflexivity).
  assert (registered PA_NAMEREG_SINK (read_name ("usb_headset" ++ nl))
            (world_restart ("usb_headset" ++ nl)) = false) as Hreg
    by (vm_compute; reflexivity).
  split; [exact Hu|]. split; [exact Hreg|].
  destruct (X2_stale_name_is_not_restored PA_NAMEREG_SINK 1%nat ud_init
              sink_path ("usb_headset" ++ nl) (world_restart ("usb_headset" ++ nl))
              Hu eq_refl eq_refl eq_refl)
    as (msg & w' & E & Hd & _); [vm_compute; reflexivity | exact Hreg |].
  exists w'. split; [exact E | exact Hd].
Defined.

(** X3.  A class without default is saved as an empty line and restored as
    no default: when the slot can be opened and the write goes through,
    [save] leaves a lone newline in the slot, and in a later run [load]
    sets no default from it, whatever names the core knows, and reports
    that as an information. *)
Theorem X3_no_default_is_restored_as_none (t : pa_namereg_type)
    (u : loc) (ud : userdata) (sf sof path : string) (w : world) :
  heap w !! u = Some ud -> modified ud = true ->
  sink_filename ud = Some sf -> source_filename ud = Some sof -> sf <> sof ->
  slot t ud = Some path ->
  write_error w !! path = None -> write_limit w !! path = None ->
  default_name t w = None ->
  exists w1,
    save u w = Some (tt, w1) /\ files w1 !! path = Some nl /\
    forall (u2 : loc) (ud2 : userdata) (w2 : world),
      heap w2 !! u2 = Some ud2 -> slot t ud2 = Some path ->
      files w2 !! path = files w1 !! path -> read_error w2 !! path = None ->
      default_name t w2 = None ->
      exists msg w3,
        load_class t u2 w2 = Some (tt, w3) /\ default_name t w3 = None /\
        log w3 = (log w2 ++ [(PA_LOG_INFO, msg)])%list.
Proof.
  intros Hu Hm Hsf Hsof Hne Hp Hw Hlim Hd.
  destruct (save_dirty_slot t u ud sf sof path w Hu Hm Hsf Hsof Hne Hp Hw Hlim)
    as (w1 & Es & Hf).
  rewrite Hd in Hf. change (pa_strempty None ++ nl) with nl in Hf.
  exists w1. split; [exact Es|]. split; [exact Hf|].
  intros u2 ud2 w2 Hu2 Hp2 Hf2 Hr2 Hd2. rewrite Hf in Hf2.
  destruct (load_class_opened t u2 ud2 path nl w2 Hu2 Hp2 Hd2 Hr2 Hf2)
    as (msg & E).
  change (read_name nl) with EmptyString in E. cbn [is_empty negb andb] in E.
  eexists msg, _. split; [exact E|]. split; destruct t; reflexivity.
Qed.

Lemma X3_witness :
  heap world_no_default !! 1%nat = Some ud_dirty /\
  default_name PA_NAMEREG_SINK world_no_default = None /\
  exists w1,
    save 1%nat world_no_default = Some (tt, w1) /\
    files w1 !! sink_path = Some nl.
Proof.
  assert (heap world_no_default !! 1%nat = Some ud_dirty) as Hu
    by (vm_compute; reflexivity).
  split; [exact Hu|]. split; [reflexivity|].
  destruct (X3_no_default_is_restored_as_none PA_NAMEREG_SINK 1%nat ud_dirty
              sink_path source_path sink_path world_no_default Hu eq_refl
              eq_refl eq_refl)
    as (w1 & Es & Hf & _);
    [discriminate | reflexivity | vm_compute; reflexivity
    | vm_compute; reflexivity | reflexivity |].
  exists w1. split; [exact Es | exact Hf].
Defined.

(** X4.  [save] treats the two slots independently and touches nothing
    else.  With the flag set it returns with the flag cleared.  A slot it
    could not open keeps its content and costs one error in the log.  A
    slot it could open holds what the file system took of the current name
    of its class and the newline: all of it when the write goes through,
    less, down to nothing, when it does not, and that is not logged.  What
    happens to one slot does not depend on the other; no other file, no
    default name, no subscription and no time event is changed. *)
Theorem X4_slots_are_saved_independently (u : loc) (ud : userdata)
    (sf sof : string) (w : world) :
  heap w !! u = Some ud -> modified ud = true ->
  sink_filename ud = Some sf -> source_filename ud = Some sof -> sf <> sof ->
  exists w1,
    save u w = Some (tt, w1) /\
    heap w1 !! u = Some (set_modified false ud) /\
    files w1 !! sf =
      match write_error w !! sf with
      | None => Some (written (write_limit w !! sf)
                        (pa_strempty (default_sink_name w) ++ nl))
      | Some _ => files w !! sf
      end /\
    files w1 !! sof =
      match write_error w !! sof with
      | None => Some (written (write_limit w !! sof)
                        (pa_strempty (default_source_name w) ++ nl))
      | Some _ => files w !! sof
      end /\
    (forall p, p <> sf -> p <> sof -> files w1 !! p = files w !! p) /\
    log w1 =
      (log w
       ++ match write_error w !! sf with
          | Some e =>
              [(PA_LOG_ERROR, ("Failed to save default sink: " ++ pa_cstrerror e)%string)]
          | None => []
          end
       ++ match write_error w !! sof with
          | Some e =>
              [(PA_LOG_ERROR, ("Failed to save default source: " ++ pa_cstrerror e)%string)]
          | None => []
          end)%list /\
    default_sink_name w1 = default_sink_name w /\
    default_source_name w1 = default_source_name w /\
    subscriptions w1 = subscriptions w /\ time_events w1 = time_events w.
Proof.
  intros Hu Hm Hsf Hsof Hne.
  eexists. split; [exact (save_dirty u ud sf sof w Hu Hm Hsf Hsof)|].
  split; [cbn [heap set_heap]; apply lookup_insert_eq|].
  unfold flushed, write_slot. fsimpl.
  destruct (write_error w !! sf) as [e1|], (write_error w !! sof) as [e2|].
  - repeat split; rewrite <- ?app_assoc; reflexivity.
  - split; [apply lookup_insert_ne; congruence|].
    split; [apply lookup_insert_eq|].
    split; [intros p H1 H2; apply lookup_insert_ne; congruence|].
    repeat split; rewrite ?app_nil_r; reflexivity.
  - split; [apply lookup_insert_eq|]. split; [apply lookup_insert_ne; congruence|].
    split; [intros p H1 H2; apply lookup_insert_ne; congruence|].
    repeat split.
  - split; [rewrite lookup_insert_ne by congruence; apply lookup_insert_eq|].
    split; [apply lookup_insert_eq|].
    split; [intros p H1 H2; rewrite !lookup_insert_ne by congruence; reflexivity|].
    repeat split; rewrite ?app_nil_r; reflexivity.
Qed.

Lemma X4_witness :
  heap world_sink_ro !! 1%nat = Some ud_dirty /\ sink_path <> source_path /\
  exists w1,
    save 1%nat world_sink_ro = Some (tt, w1) /\
    files w1 !! sink_path = Some ("null" ++ nl) /\
    files w1 !! source_path = Some ("alsa_input" ++ nl).
Proof.
  assert (heap world_sink_ro !! 1%nat = Some ud_dirty) as Hu
    by (vm_compute; reflexivity).
  assert (sink_path <> source_path) as Hne by discriminate.
  split; [exact Hu|]. split; [exact Hne|].
  destruct (X4_slots_are_saved_independently 1%nat ud_dirty sink_path
              source_path world_sink_ro Hu eq_refl eq_refl eq_refl Hne)
    as (w1 & Es & _ & Hf1 & Hf2 & _).
  exists w1. split; [exact Es|]. split.
  - rewrite Hf1. vm_compute. reflexivity.
  - rewrite Hf2. vm_compute. reflexivity.
Defined.

(** *** Loading and unloading the module *)

(** One half of [load] returns, having done at most one [fopen] for
    reading, on the slot of its class, and none when a default is
    configured for the class. *)
Lemma load_class_reads (t : pa_namereg_type) (u : loc) (ud : userdata)
    (path : string) (w : world) :
  heap w !! u = Some ud -> slot t ud = Some path ->
  exists w' (d : list io_event),
    load_class t u w = Some (tt, w') /\ trace w' = (trace w ++ d)%list /\
    (d = [] \/ exists r, d = [Fopen path ModeR r]) /\
    (default_name t w <> None -> d = []) /\
    default_name (other t) w' = default_name (other t) w /\
    load_frame w w'.
Proof.
  intros Hu Hp.
  assert (forall w', load_class t u w = Some (tt, w') -> load_frame w w') as Hk
    by (intros w' E; destruct t; [exact (keeps_load_sink _ _ _ _ E)
                                 | exact (keeps_load_source _ _ _ _ E)]).
  destruct (default_name t w) as [n|] eqn:Hc.
  - destruct (load_class_configured t u ud n w Hu Hc) as (msg & E).
    eexists _, []. split; [exact E|].
    split; [cbn [trace set_log]; symmetry; apply app_nil_r|].
    split; [left; reflexivity|]. split; [reflexivity|].
    split; [destruct t; reflexivity | exact (Hk _ E)].
  - destruct (open_outcome path w) as [e|] eqn:Ho.
    + destruct (decide (e = ENOENT)) as [->|He].
      * pose proof (load_class_absent t u ud path w Hu Hp Hc Ho) as E.
        eexists _, _. split; [exact E|]. split; [reflexivity|].
        split; [right; eexists; reflexivity|]. split; [congruence|].
        split; [destruct t; reflexivity | exact (Hk _ E)].
      * pose proof (load_class_open_error t u ud path e w Hu Hp Hc Ho He) as E.
        eexists _, _. split; [exact E|]. split; [reflexivity|].
        split; [right; eexists; reflexivity|]. split; [congruence|].
        split; [destruct t; reflexivity | exact (Hk _ E)].
    + unfold open_outcome in Ho.
      destruct (read_error w !! path) eqn:Hr; [discriminate|].
      destruct (files w !! path) as [content|] eqn:Hf; [|discriminate].
      destruct (load_class_opened t u ud path content w Hu Hp Hc Hr Hf)
        as (msg & E).
      eexists _, _. split; [exact E|]. split; [destruct t; reflexivity|].
      split; [right; eexists; reflexivity|]. split; [congruence|].
      split; [destruct t; reflexivity | exact (Hk _ E)].
Qed.

(** [load] returns whenever the structure holds both file names. *)
Lemma load_total (u : loc) (ud : userdata) (sf sof : string) (w : world) :
  heap w !! u = Some ud ->
  sink_filename ud = Some sf -> source_filename ud = Some sof ->
  exists w' (d1 d2 : list io_event),
    load u w = Some (tt, w') /\ trace w' = (trace w ++ d1 ++ d2)%list /\
    (d1 = [] \/ exists r, d1 = [Fopen sf ModeR r]) /\
    (d2 = [] \/ exists r, d2 = [Fopen sof ModeR r]) /\
    (default_sink_name w <> None -> d1 = []) /\
    (default_source_name w <> None -> d2 = []).
Proof.
  intros Hu Hsf Hsof.
  destruct (load_class_reads PA_NAMEREG_SINK u ud sf w Hu Hsf)
    as (wa & d1 & E1 & Ht1 & Hs1 & Hc1 & Hd & Hk).
  assert (heap wa !! u = Some ud) as Hu'
    by (destruct Hk as (_ & _ & _ & _ & _ & _ & _ & _ & _ & -> & _); exact Hu).
  destruct (load_class_reads PA_NAMEREG_SOURCE u ud sof wa Hu' Hsof)
    as (w' & d2 & E2 & Ht2 & Hs2 & Hc2 & _).
  exists w', d1, d2. split.
  { unfold load, bind. cbn [load_class] in E1, E2. rewrite E1, E2. reflexivity. }
  split; [rewrite Ht2, Ht1, app_assoc; reflexivity|].
  split; [exact Hs1|]. split; [exact Hs2|]. split; [exact Hc1|].
  cbn [other default_name] in Hd, Hc2. rewrite Hd in Hc2. exact Hc2.
Qed.

(** X5.  When the path of the state files cannot be had, [pa__init] fails
    with -1 after undoing what it did: it has opened no file, logged
    nothing, registered no subscription and no time event, and the
    structure it allocated is freed again. *)
Theorem X5_init_fails_without_state_path (w : world) :
  state_dir w = None ->
  exists w',
    pa__init w = Some (-1, w') /\
    heap w' !! next_loc w = None /\ m_userdata w' = Some (next_loc w) /\
    files w' = files w /\ trace w' = trace w /\ log w' = log w /\
    subscriptions w' = subscriptions w /\ time_events w' = time_events w /\
    default_sink_name w' = default_sink_name w /\
    default_source_name w' = default_source_name w.
Proof.
  intros Hd. rewrite (pa__init_fail w Hd).
  eexists. split.
  - unfold pa__done, save, pa_xfree, allocated. wsimpl.
    rewrite lookup_insert_eq. wsimpl. rewrite lookup_insert_eq. wsimpl.
    rewrite lookup_insert_eq. reflexivity.
  - cbn [heap set_heap]. split; [apply lookup_delete_eq|]. repeat split.
Qed.

Lemma X5_witness :
  state_dir world_homeless = None /\
  exists w', pa__init world_homeless = Some (-1, w') /\ subscriptions w' = ∅.
Proof.
  split; [reflexivity|].
  destruct (X5_init_fails_without_state_path world_homeless eq_refl)
    as (w' & E & _ & _ & _ & _ & _ & Hs & _).
  exists w'. split; [exact E | exact Hs].
Defined.

(** X6.  When the path of the state files can be had, [pa__init] succeeds,
    whatever the slot files hold and whichever way opening them fails: a
    failure in [load] is never one of the module.  It leaves the module
    loaded, idle and with the flag clear, and has written no file. *)
Theorem X6_init_succeeds_with_state_path (d : string) (w0 : world) :
  boot w0 -> state_dir w0 = Some d ->
  exists ud w1,
    pa__init w0 = Some (0, w1) /\ live (next_loc w0) ud w1 /\
    time_event ud = None /\ modified ud = false /\ files w1 = files w0.
Proof.
  intros Hb Hd.
  destruct (load_total (next_loc w0)
              (mkUserdata None None (Some (d ++ "/" ++ "default-sink"))
                 (Some (d ++ "/" ++ "default-source")) false)
              _ _
              (allocated (Some (d ++ "/" ++ "default-sink"))
                 (Some (d ++ "/" ++ "default-source")) w0)
              (lookup_insert_eq _ _ _) eq_refl eq_refl)
    as (wa & d1 & d2 & El & _).
  pose proof (keeps_load _ _ _ _ El)
    as (_ & _ & _ & _ & _ & _ & _ & _ & _ & Eh & _).
  assert (exists w1, pa__init w0 = Some (0, w1)) as (w1 & Ei).
  { rewrite (pa__init_ok d w0 Hd). unfold bind at 1. rewrite El.
    erewrite init_tail by (rewrite Eh; apply lookup_insert_eq).
    eexists. reflexivity. }
  destruct (init_live w0 w1 Hb Ei)
    as (d' & ud & _ & Hl & Ht & Hm & _ & _ & Hf & _).
  exists ud, w1. split; [exact Ei|]. split; [exact Hl|]. split; [exact Ht|].
  split; [exact Hm | exact Hf].
Qed.

Lemma X6_witness :
  boot world_readonly /\ state_dir world_readonly = Some "/var/lib/pulse" /\
  exists w1, pa__init world_readonly = Some (0, w1).
Proof.
  assert (boot world_readonly) as Hb by (repeat split).
  split; [exact Hb|]. split; [reflexivity|].
  destruct (X6_init_succeeds_with_state_path "/var/lib/pulse" world_readonly
              Hb eq_refl) as (ud & w1 & E & _).
  exists w1. exact E.
Defined.

(** X7.  [load] only reads.  It returns, and it has changed no file, no
    subscription, no time event and nothing in memory; what it has done on
    the file system is at most one [fopen] for reading per slot, the sink
    slot first, and none for a class with a configured default. *)
Theorem X7_load_only_reads (u : loc) (ud : userdata) (sf sof : string)
    (w : world) :
  heap w !! u = Some ud ->
  sink_filename ud = Some sf -> source_filename ud = Some sof ->
  exists w' (d1 d2 : list io_event),
    load u w = Some (tt, w') /\
    files w' = files w /\ heap w' = heap w /\
    subscriptions w' = subscriptions w /\ time_events w' = time_events w /\
    trace w' = (trace w ++ d1 ++ d2)%list /\
    (d1 = [] \/ exists r, d1 = [Fopen sf ModeR r]) /\
    (d2 = [] \/ exists r, d2 = [Fopen sof ModeR r]) /\
    (default_sink_name w <> None -> d1 = []) /\
    (default_source_name w <> None -> d2 = []).
Proof.
  intros Hu Hsf Hsof.
  destruct (load_total u ud sf sof w Hu Hsf Hsof)
    as (w' & d1 & d2 & El & Ht & Hs1 & Hs2 & Hc1 & Hc2).
  pose proof (keeps_load _ _ _ _ El)
    as (_ & _ & Es & _ & Ete & Ef & _ & _ & _ & Eh & _).
  exists w', d1, d2. split; [exact El|]. split; [exact Ef|]. split; [exact Eh|].
  split; [exact Es|]. split; [exact Ete|]. split; [exact Ht|].
  split; [exact Hs1|]. split; [exact Hs2|]. split; [exact Hc1 | exact Hc2].
Qed.

Lemma X7_witness :
  heap world_configured !! 1%nat = Some ud_init /\
  exists w',
    load 1%nat world_configured = Some (tt, w') /\
    files w' = files world_configured.
Proof.
  assert (heap world_configured !! 1%nat = Some ud_init) as Hu
    by (vm_compute; reflexivity).
  split; [exact Hu|].
  destruct (X7_load_only_reads 1%nat ud_init sink_path source_path
              world_configured Hu eq_refl eq_refl)
    as (w' & d1 & d2 & E & Hf & _).
  exists w'. split; [exact E | exact Hf].
Defined.

(** X8.  The two halves of [load] do not depend on each other.  A slot that
    can be opened and names a resource the core knows is restored as the
    default of its class, whatever the state of the other class: default
    configured or not, slot missing, unreadable or stale. *)
Theorem X8_classes_are_restored_independently (t : pa_namereg_type)
    (u : loc) (ud : userdata) (path path' content : string) (w : world) :
  heap w !! u = Some ud ->
  slot t ud = Some path -> slot (other t) ud = Some path' ->
  default_name t w = None ->
  read_error w !! path = None -> files w !! path = Some content ->
  read_name content <> EmptyString ->
  registered t (read_name content) w = true ->
  exists w',
    load u w = Some (tt, w') /\ default_name t w' = Some (read_name content).
Proof.
  intros Hu Hp Hp' Hc Hr Hf Hnz Hreg.
  assert (forall w0, heap w0 !! u = Some ud -> default_name t w0 = None ->
            read_error w0 !! path = None -> files w0 !! path = Some content ->
            registered t (read_name content) w0 = true ->
            exists w1, load_class t u w0 = Some (tt, w1) /\
                       default_name t w1 = Some (read_name content)) as Hmine.
  { intros w0 Hu0 Hc0 Hr0 Hf0 Hreg0.
    destruct (load_class_opened t u ud path content w0 Hu0 Hp Hc0 Hr0 Hf0)
      as (msg & E).
    rewrite Hreg0 in E. destruct (read_name content); [contradiction|].
    cbn [is_empty negb andb] in E.
    eexists. split; [exact E|]. destruct t; reflexivity. }
  destruct t; cbn [other] in Hp'.
  - destruct (Hmine w Hu Hc Hr Hf Hreg) as (wa & E1 & Hd1).
    assert (heap wa !! u = Some ud) as Hu'.
    { pose proof (keeps_load_sink _ _ _ _ E1)
        as (_ & _ & _ & _ & _ & _ & _ & _ & _ & -> & _). exact Hu. }
    destruct (load_class_reads PA_NAMEREG_SOURCE u ud path' wa Hu' Hp')
      as (w' & d & E2 & _ & _ & _ & Hd2 & _).
    exists w'. split.
    { unfold load, bind. cbn [load_class] in E1, E2. rewrite E1, E2. reflexivity. }
    cbn [other] in Hd2. rewrite Hd2. exact Hd1.
  - destruct (load_class_reads PA_NAMEREG_SINK u ud path' w Hu Hp')
      as (wa & d & E1 & _ & _ & _ & Hd1 & Hk).
    destruct Hk as (_ & Hso & _ & _ & _ & Hfi & Hre & _ & _ & Hh & _).
    assert (exists w', load_class PA_NAMEREG_SOURCE u wa = Some (tt, w') /\
              default_name PA_NAMEREG_SOURCE w' = Some (read_name content))
      as (w' & E2 & Hd2).
    { apply Hmine.
      - rewrite Hh. exact Hu.
      - cbn [other] in Hd1. rewrite Hd1. exact Hc.
      - rewrite Hre. exact Hr.
      - rewrite Hfi. exact Hf.
      - cbn [registered] in *. rewrite Hso. exact Hreg. }
    exists w'. split; [|exact Hd2].
    unfold load, bind. cbn [load_class] in E1, E2. rewrite E1, E2. reflexivity.
Qed.

Lemma X8_witness :
  heap world_source_only !! 1%nat = Some ud_init /\
  open_outcome sink_path world_source_only = Some EACCES /\
  exists w',
    load 1%nat world_source_only = Some (tt, w') /\
    default_source_name w' = Some "alsa_input".
Proof.
  assert (heap world_source_only !! 1%nat = Some ud_init) as Hu
    by (vm_compute; reflexivity).
  split; [exact Hu|]. split; [vm_compute; reflexivity|].
  destruct (X8_classes_are_restored_independently PA_NAMEREG_SOURCE 1%nat
              ud_init source_path sink_path ("alsa_input" ++ nl)
              world_source_only Hu eq_refl eq_refl eq_refl)
    as (w' & E & Hd);
    [vm_compute; reflexivity | vm_compute; reflexivity
    | vm_compute; discriminate | vm_compute; reflexivity |].
  exists w'. split; [exact E|]. cbn [default_name] in Hd. rewrite Hd.
  vm_compute. reflexivity.
Defined.

(** X9.  A shutdown with nothing to save saves nothing: [pa__done] on a
    loaded module whose flag is clear opens no file, logs nothing and
    leaves every file as it is, while it still removes the subscription
    and frees the structure. *)
Theorem X9_clean_shutdown_writes_nothing (u : loc) (ud : userdata) (w : world) :
  live u ud w -> modified ud = false ->
  exists w',
    pa__done w = Some (tt, w') /\
    files w' = files w /\ trace w' = trace w /\ log w' = log w /\
    subscriptions w' = ∅ /\ time_events w' = ∅ /\ heap w' !! u = None.
Proof.
  intros Hl Hm. destruct (live_files u ud w Hl) as (sf & sof & Hsf & Hsof).
  pose proof (done_live u ud sf sof w Hl Hsf Hsof) as E. rewrite Hm in E.
  eexists. split; [exact E|]. cbn [files trace log subscriptions time_events heap
                                  set_heap set_time_events set_subscriptions].
  repeat split. apply lookup_delete_eq.
Qed.

Lemma X9_witness :
  live 1%nat ud_loaded world_loaded /\
  exists w',
    pa__done world_loaded = Some (tt, w') /\ trace w' = trace world_loaded.
Proof.
  assert (live 1%nat ud_loaded world_loaded) as Hl by live_by_computation.
  split; [exact Hl|].
  destruct (X9_clean_shutdown_writes_nothing 1%nat ud_loaded world_loaded Hl
              eq_refl) as (w' & E & _ & Ht & _).
  exists w'. split; [exact E | exact Ht].
Defined.

(** X10.  After [pa__done] no callback of the module can run any more:
    the core holds no subscription and the main loop no time event, so
    that an event posted on the bus, of whatever category, leaves the world
    as it is, a change of a default changes the default name and nothing
    else, and there is no time event to fire. *)
Theorem X10_no_callback_after_shutdown (u : loc) (ud : userdata) (w : world) :
  live u ud w ->
  exists w',
    pa__done w = Some (tt, w') /\
    subscriptions w' = ∅ /\ time_events w' = ∅ /\
    (forall t idx, step (Post t idx) w' = Some (tt, w')) /\
    (forall t name,
       step (Change t name) w' = Some (tt, set_default_name t name w')) /\
    (forall e, time_events w' !! e = None /\ step (Fire e) w' = None).
Proof.
  intros Hl. destruct (live_files u ud w Hl) as (sf & sof & Hsf & Hsof).
  pose proof (unloaded_done u ud sf sof w Hl) as (Hs & Ht & _).
  eexists. split; [exact (done_live u ud sf sof w Hl Hsf Hsof)|].
  split; [exact Hs|]. split; [exact Ht|].
  split; [intros t idx; cbn [step]; apply post_unloaded; exact Hs|].
  split.
  - intros t name. rewrite step_change_eq.
    rewrite post_unloaded by (destruct t; exact Hs). destruct t; reflexivity.
  - intros e. split; [rewrite Ht; apply lookup_empty|].
    cbn [step]. rewrite mainloop_fire_eq, Ht, lookup_empty. reflexivity.
Qed.

Lemma X10_witness :
  live 1%nat ud_loaded world_loaded /\
  exists w',
    pa__done world_loaded = Some (tt, w') /\
    step (Post (EVENT_SERVER, EVENT_CHANGE) PA_INVALID_INDEX) w' = Some (tt, w').
Proof.
  assert (live 1%nat ud_loaded world_loaded) as Hl by live_by_computation.
  split; [exact Hl|].
  destruct (X10_no_callback_after_shutdown 1%nat ud_loaded world_loaded Hl)
    as (w' & E & _ & _ & Hp & _).
  exists w'. split; [exact E | apply Hp].
Defined.

(** *** The time event and the flag *)

Lemma deadline_near_empty (w : world) : time_events w = ∅ -> deadline_near w.
Proof. intros H e te d Hl. rewrite H, lookup_empty in Hl. discriminate. Qed.

Lemma deadline_near_frame (w w' : world) :
  time_events w' = time_events w -> now w <= now w' ->
  deadline_near w -> deadline_near w'.
Proof.
  intros Ht Hn H e te d Hl Hd. rewrite Ht in Hl. specialize (H e te d Hl Hd). lia.
Qed.

Lemma deadline_near_armed (u : loc) (ud : userdata) (w : world) :
  time_events w = ∅ -> deadline_near (armed u ud w).
Proof.
  intros Ht e te d Hl Hd. unfold armed in Hl. cbn [time_events set_heap
    set_next_loc set_time_events] in Hl. rewrite Ht, insert_empty in Hl.
  apply lookup_singleton_Some in Hl as (_ & <-). cbn [te_deadline] in Hd.
  injection Hd as <-. unfold armed. cbn [now set_heap set_next_loc set_time_events].
  lia.
Qed.

Lemma subscribe_cb_deadline t idx (u : loc) (ud : userdata) (w w' : world) :
  live u ud w -> deadline_near w ->
  subscribe_cb t idx u w = Some (tt, w') -> deadline_near w'.
Proof.
  intros Hl Hn H. pose proof Hl as (_ & Hu & _ & _ & Ht).
  destruct (time_event ud) as [e|] eqn:Hte.
  - rewrite (subscribe_cb_armed t idx u ud e w Hu Hte) in H. injection H as <-.
    eapply deadline_near_frame; [| |exact Hn]; [reflexivity | cbn [now set_heap]; lia].
  - rewrite (subscribe_cb_idle t idx u ud w Hu Hte) in H. injection H as <-.
    apply deadline_near_armed. exact Ht.
Qed.

Lemma step_deadline (a : action) (w w' : world) :
  module_inv w -> deadline_near w -> step a w = Some (tt, w') ->
  deadline_near w'.
Proof.
  intros [(u & ud & Hl)|Hu] Hn H.
  - destruct a as [t name|t idx|dt|e|].
    + rewrite step_change_eq in H.
      assert (live u ud (set_default_name t name w)) as Hl'
        by (destruct t; (eapply live_frame; [..|exact Hl]; reflexivity)).
      assert (deadline_near (set_default_name t name w)) as Hn'
        by (eapply deadline_near_frame; [| |exact Hn]; destruct t;
            first [reflexivity | cbn [now set_default_name set_default_sink_name
                                        set_default_source_name]; lia]).
      change (match t with
              | PA_NAMEREG_SINK => set_default_sink_name name w
              | PA_NAMEREG_SOURCE => set_default_source_name name w
              end) with (set_default_name t name w) in H.
      rewrite (post_live _ _ u ud _ Hl') in H. cbn [fst facility_eqb] in H.
      exact (subscribe_cb_deadline _ _ u ud _ w' Hl' Hn' H).
    + cbn [step] in H. rewrite (post_live t idx u ud w Hl) in H.
      destruct (facility_eqb (fst t) EVENT_SERVER).
      * exact (subscribe_cb_deadline _ _ u ud _ w' Hl Hn H).
      * injection H as <-. exact Hn.
    + rewrite step_tick_eq in H. destruct (0 <=? dt) eqn:Hdt; [|discriminate].
      injection H as <-. apply Z.leb_le in Hdt.
      eapply deadline_near_frame; [| |exact Hn]; [reflexivity | cbn [now set_now]; lia].
    + destruct (live_files u ud w Hl) as (sf & sof & Hsf & Hsof).
      destruct (fire_live e u ud sf sof w Hl Hsf Hsof w' H) as (_ & _ & ->).
      apply deadline_near_empty. reflexivity.
    + destruct (live_files u ud w Hl) as (sf & sof & Hsf & Hsof).
      cbn [step] in H. rewrite (done_live u ud sf sof w Hl Hsf Hsof) in H.
      injection H as <-. apply deadline_near_empty. reflexivity.
  - apply deadline_near_empty. apply (step_unloaded a w w' Hu H).
Qed.

Lemma run_deadline (acts : list action) (w w' : world) :
  module_inv w -> deadline_near w -> exec (run acts) w = Some w' ->
  deadline_near w'.
Proof.
  revert w. induction acts as [|a rest IH]; intros w Hi Hn H.
  - injection H as <-. exact Hn.
  - apply exec_run_cons_inv in H as (w1 & Hs & Hr).
    apply (IH w1); [eapply step_inv; eassumption
                   | eapply step_deadline; eassumption | exact Hr].
Qed.

(** X11.  In every state reached from a successful start in which the
    structure of the module is allocated, the structure and the main loop
    agree on the time event: either the structure has none and the main
    loop has none, or the main loop has exactly the one the structure
    points to.  A time event is only pending while the flag is set, so its
    firing always saves, and it is never due later than one save interval
    from now. *)
Theorem X11_time_event_is_consistent (w0 : world) (acts : list action)
    (w : world) (u : loc) (ud : userdata) :
  reachable w0 acts w -> m_userdata w = Some u -> heap w !! u = Some ud ->
  match time_event ud with
  | Some e =>
      modified ud = true /\
      exists d, time_events w = {[e := mkTimeEvent (Some d) u]} /\
                d <= now w + DEFAULT_SAVE_INTERVAL * PA_USEC_PER_SEC
  | None => time_events w = ∅
  end.
Proof.
  intros Hr Hm Hu.
  assert (deadline_near w) as Hn.
  { destruct Hr as (Hb & w1 & Hi & Hrun).
    destruct (init_live w0 w1 Hb Hi) as (d & ud0 & _ & Hl0 & Ht0 & _).
    pose proof Hl0 as (_ & _ & _ & _ & Hte). rewrite Ht0 in Hte.
    apply (run_deadline acts w1 w); [left; exists (next_loc w0), ud0; exact Hl0
                                    | apply deadline_near_empty; exact Hte
                                    | exact Hrun]. }
  destruct (reachable_inv w0 acts w Hr) as [(u' & ud' & Hl)|(_ & _ & u' & Hm' & Hu')].
  - pose proof Hl as (Hm' & Hu' & _ & _ & Ht).
    assert (u' = u) as -> by congruence. assert (ud' = ud) as -> by congruence.
    destruct (time_event ud) as [e|]; [|exact Ht].
    destruct Ht as (Hmod & d & Hte). split; [exact Hmod|].
    exists d. split; [exact Hte|].
    apply (Hn e (mkTimeEvent (Some d) u) d); [|reflexivity].
    rewrite Hte. apply lookup_singleton_eq.
  - congruence.
Qed.

Lemma X11_witness :
  reachable world0 [Change PA_NAMEREG_SINK (Some "A"); Tick 1000000]
    (after world0 [Change PA_NAMEREG_SINK (Some "A"); Tick 1000000]) /\
  heap (after world0 [Change PA_NAMEREG_SINK (Some "A"); Tick 1000000]) !! 1%nat
    = Some ud_armed /\
  modified ud_armed = true.
Proof.
  assert (reachable world0 [Change PA_NAMEREG_SINK (Some "A"); Tick 1000000]
            (after world0 [Change PA_NAMEREG_SINK (Some "A"); Tick 1000000])) as Hr
    by reachable_by_computation.
  assert (heap (after world0 [Change PA_NAMEREG_SINK (Some "A"); Tick 1000000])
            !! 1%nat = Some ud_armed) as Hu by (vm_compute; reflexivity).
  split; [exact Hr|]. split; [exact Hu|].
  apply (X11_time_event_is_consistent _ _ _ 1%nat ud_armed Hr);
    [vm_compute; reflexivity | exact Hu].
Defined.

(** X12.  After a time event has fired, the next change event starts a new
    interval: [time_cb] has saved once and freed the time event, and
    [subscribe_cb] arms a new one, due one save interval after that
    event. *)
Theorem X12_change_after_firing_rearms (t : pa_namereg_type)
    (name : option string) (dt d : Z) (e u : loc) (ud : userdata)
    (sf sof : string) (w : world) :
  live u ud w -> time_event ud = Some e ->
  time_events w = {[e := mkTimeEvent (Some d) u]} -> d <= now w ->
  sink_filename ud = Some sf -> source_filename ud = Some sof -> 0 <= dt ->
  exists ud3 w3,
    exec (run [Fire e; Tick dt; Change t name]) w = Some w3 /\
    live u ud3 w3 /\ modified ud3 = true /\
    time_events w3 =
      {[next_loc w :=
          mkTimeEvent (Some (now w + dt + DEFAULT_SAVE_INTERVAL * PA_USEC_PER_SEC)) u]} /\
    time_event ud3 = Some (next_loc w) /\
    trace w3 =
      (trace w ++ slot_io sf (default_sink_name w) (write_error w !! sf)
         ++ slot_io sof (default_source_name w) (write_error w !! sof))%list.
Proof.
  intros Hl Hte Htes Hd Hsf Hsof Hdt.
  pose proof (fire_due e u ud sf sof d w Hl Hte Htes Hd Hsf Hsof) as Ef.
  pose proof (live_fired u ud sf sof w Hl) as Hl1.
  set (ud1 := set_time_event None (set_modified false ud)) in *.
  set (w1 := set_heap (<[u := ud1]> (heap w))
               (set_time_events ∅ (flushed sf sof w))) in *.
  destruct (tick_live dt u ud1 w1 Hl1 Hdt) as (Et & Hl2).
  destruct (change_live t name u ud1 _ Hl2)
    as (ud3 & w3 & Ec & Hl3 & Hm3 & _ & _ & _ & Hq & _ & Hnone).
  destruct (Hnone eq_refl) as (Hte3 & Htes3).
  apply quiet_set_default in Hq as (Htr & _).
  exists ud3, w3.
  split; [rewrite (exec_run_cons (Fire e) _ _ _ Ef), (exec_run_cons _ _ _ _ Et),
            (exec_run_cons _ _ _ _ Ec); reflexivity|].
  split; [exact Hl3|]. split; [exact Hm3|].
  split; [exact Htes3|]. split; [exact Hte3|].
  rewrite Htr. apply flushed_trace.
Qed.

Lemma X12_witness :
  live 1%nat ud_armed (after world0 [Change PA_NAMEREG_SINK (Some "A"); Tick 5000000]) /\
  exists w3,
    exec (run [Fire 3%nat; Tick 1000000; Change PA_NAMEREG_SINK (Some "B")])
      (after world0 [Change PA_NAMEREG_SINK (Some "A"); Tick 5000000]) = Some w3 /\
    time_events w3 = {[4%nat := mkTimeEvent (Some 11000000) 1%nat]}.
Proof.
  assert (live 1%nat ud_armed
            (after world0 [Change PA_NAMEREG_SINK (Some "A"); Tick 5000000]))
    as Hl by live_by_computation.
  split; [exact Hl|].
  destruct (X12_change_after_firing_rearms PA_NAMEREG_SINK (Some "B") 1000000
              5000000 3%nat 1%nat ud_armed sink_path source_path _ Hl eq_refl)
    as (ud3 & w3 & E & _ & _ & Ht & _);
    [vm_compute; reflexivity | vm_compute; discriminate | reflexivity
    | reflexivity | lia |].
  exists w3. split; [exact E|]. rewrite Ht. vm_compute. reflexivity.
Defined.

(** *** The line [load] reads *)

Lemma plain_cons (c : ascii) (rest : string) :
  plain (String c rest) = true ->
  Ascii.eqb c NUL = false /\ Ascii.eqb c CR = false /\ Ascii.eqb c LF = false /\
  plain rest = true.
Proof.
  cbn [plain]. intros Hp.
  apply andb_prop in Hp as [Hp Hrest]. apply andb_prop in Hp as [Hp Hlf].
  apply andb_prop in Hp as [Hnul Hcr].
  apply negb_true_iff in Hnul, Hcr, Hlf. repeat split; assumption.
Qed.

Lemma strip_cons (c : ascii) (s : string) :
  Ascii.eqb c CR = false -> Ascii.eqb c LF = false ->
  pa_strip_nl (String c s) = String c (pa_strip_nl s).
Proof.
  intros Hcr Hlf. unfold pa_strip_nl. cbn [strcspn_crlf]. rewrite Hcr, Hlf.
  reflexivity.
Qed.

(** A name that fits is read whole when nothing follows it. *)
Lemma read_bare_room (room : nat) (name : string) :
  plain name = true -> (String.length name <= room)%nat ->
  pa_strip_nl (c_str (fgets_room room name)) = name.
Proof.
  revert name. induction room as [|room IH]; intros [|c rest] Hp Hlen;
    try reflexivity; [cbn in Hlen; lia|].
  apply plain_cons in Hp as (Hnul & Hcr & Hlf & Hrest).
  cbn [fgets_room]. rewrite Hlf. cbn [c_str]. rewrite Hnul.
  rewrite (strip_cons c _ Hcr Hlf). f_equal.
  apply IH; [exact Hrest | cbn in Hlen; lia].
Qed.

(** A name that fits is read whole when a character that ends the line
    follows it, whatever comes after that character. *)
Lemma read_first_line_room (room : nat) (name : string) (c : ascii)
    (rest : string) :
  plain name = true -> (String.length name <= room)%nat -> ends_line c ->
  pa_strip_nl (c_str (fgets_room room (name ++ String c rest))) = name.
Proof.
  intros Hp Hlen Hc. revert name Hp Hlen.
  induction room as [|room IH]; intros [|a name] Hp Hlen.
  - reflexivity.
  - cbn in Hlen. lia.
  - change (EmptyString ++ String c rest) with (String c rest).
    cbn [fgets_room]. destruct Hc as [-> | [-> | ->]]; reflexivity.
  - apply plain_cons in Hp as (Hnul & Hcr & Hlf & Hrest).
    change (String a name ++ String c rest) with (String a (name ++ String c rest)).
    cbn [fgets_room]. rewrite Hlf. cbn [c_str]. rewrite Hnul.
    rewrite (strip_cons a _ Hcr Hlf). f_equal.
    apply IH; [exact Hrest | cbn in Hlen; lia].
Qed.

(** X13.  Only the first line of a slot file counts.  A slot that holds a
    one-line name of 1 to 254 characters the core knows, either alone or
    followed by a newline, a carriage return or a NUL and anything at all
    after it, is restored as that name: a file without final newline, with
    DOS line ends or with further lines reads the same. *)
Theorem X13_only_the_first_line_counts (t : pa_namereg_type) (u : loc)
    (ud : userdata) (path name content : string) (w : world) :
  heap w !! u = Some ud -> slot t ud = Some path -> default_name t w = None ->
  read_error w !! path = None -> files w !! path = Some content ->
  plain name = true -> name <> EmptyString -> (String.length name <= 254)%nat ->
  registered t name w = true ->
  (content = name \/
   exists c rest, ends_line c /\ content = name ++ String c rest) ->
  read_name content = name /\
  exists w', load_class t u w = Some (tt, w') /\ default_name t w' = Some name.
Proof.
  intros Hu Hp Hd Hr Hf Hplain Hnz Hlen Hreg Hcontent.
  assert (read_name content = name) as Hrn.
  { unfold read_name, fgets.
    destruct Hcontent as [-> | (c & rest & Hc & ->)].
    - apply read_bare_room; assumption.
    - apply read_first_line_room; assumption. }
  split; [exact Hrn|].
  destruct (load_class_opened t u ud path content w Hu Hp Hd Hr Hf) as (msg & E).
  rewrite Hrn, Hreg in E. destruct name as [|a name]; [contradiction|].
  cbn [is_empty negb andb] in E.
  eexists. split; [exact E|]. destruct t; reflexivity.
Qed.

Lemma X13_witness :
  heap (world_restart "alsa_output") !! 1%nat = Some ud_init /\
  read_name "alsa_output" = "alsa_output" /\
  exists w',
    load_class PA_NAMEREG_SINK 1%nat (world_restart "alsa_output") = Some (tt, w') /\
    default_sink_name w' = Some "alsa_output".
Proof.
  assert (heap (world_restart "alsa_output") !! 1%nat = Some ud_init) as Hu
    by (vm_compute; reflexivity).
  split; [exact Hu|].
  destruct (X13_only_the_first_line_counts PA_NAMEREG_SINK 1%nat ud_init
              sink_path "alsa_output" "alsa_output" (world_restart "alsa_output")
              Hu eq_refl eq_refl eq_refl)
    as (Hrn & w' & E & Hd);
    [vm_compute; reflexivity | reflexivity | discriminate | vm_compute; lia
    | vm_compute; reflexivity | left; reflexivity |].
  split; [exact Hrn|]. exists w'. split; [exact E | exact Hd].
Defined.

(** *** Where the module touches the file system *)

(** X14.  The module touches the file system and the log only in [time_cb]
    and [pa__done].  In every state reached from a successful start, an
    event on the bus, a change of a default or the passing of time leaves
    every file, the record of file operations and the log as they are:
    [subscribe_cb] does no input or output. *)
Theorem X14_events_do_no_io (w0 : world) (acts : list action) (w : world)
    (a : action) (w' : world) :
  reachable w0 acts w -> step a w = Some (tt, w') ->
  (forall e, a <> Fire e) -> a <> Stop ->
  files w' = files w /\ trace w' = trace w /\ log w' = log w.
Proof.
  intros Hr H Hfire Hstop.
  destruct (reachable_inv w0 acts w Hr) as [(u & ud & Hl)|(Hs & _)].
  - destruct a as [t name|t idx|dt|e|].
    + destruct (change_live t name u ud w Hl)
        as (ud' & w2 & E & _ & _ & _ & _ & _ & Hq & _).
      rewrite E in H. injection H as <-.
      apply quiet_set_default in Hq as (Ht & Hf & _ & Hlog & _).
      repeat split; assumption.
    + cbn [step] in H. rewrite (post_live t idx u ud w Hl) in H.
      destruct (facility_eqb (fst t) EVENT_SERVER).
      * destruct (subscribe_cb_live t idx u ud w Hl)
          as (ud' & w2 & E & _ & _ & _ & _ & _ & Ht & Hf & _ & Hlog & _).
        rewrite E in H. injection H as <-. repeat split; assumption.
      * injection H as <-. repeat split.
    + rewrite step_tick_eq in H. destruct (0 <=? dt); [|discriminate].
      injection H as <-. repeat split.
    + destruct (Hfire e eq_refl).
    + destruct (Hstop eq_refl).
  - destruct a as [t name|t idx|dt|e|].
    + rewrite step_change_eq, post_unloaded in H by (destruct t; exact Hs).
      injection H as <-. destruct t; repeat split.
    + cbn [step] in H. rewrite post_unloaded in H by exact Hs.
      injection H as <-. repeat split.
    + rewrite step_tick_eq in H. destruct (0 <=? dt); [|discriminate].
      injection H as <-. repeat split.
    + destruct (Hfire e eq_refl).
    + destruct (Hstop eq_refl).
Qed.

Lemma X14_witness :
  reachable world0 [] world_loaded /\
  exists w',
    step (Change PA_NAMEREG_SINK (Some "A")) world_loaded = Some (tt, w') /\
    trace w' = trace world_loaded.
Proof.
  assert (reachable world0 [] world_loaded) as Hr by reachable_by_computation.
  split; [exact Hr|].
  assert (exists w', step (Change PA_NAMEREG_SINK (Some "A")) world_loaded
                     = Some (tt, w')) as (w' & E)
    by (eexists; vm_compute; reflexivity).
  exists w'. split; [exact E|].
  apply (X14_events_do_no_io world0 [] world_loaded _ w' Hr E); discriminate.
Defined.
